(** * ProductRecommendationApp: a shallow embedding and its properties

    The program is a single Streamlit script, [ProductRecommendationApp.py].
    Its logic is: loading the catalog ([load_data] and the start-up check),
    the description cleaner (three textual copies of the same chain of
    [str.replace] calls), the recommender ([find_related_products]) and the
    sidebar keyword search.

    Library calls are modelled as follows.
    - Python [str] values are [string]s; [str.replace] is [str_replace].
      ASCII text is modelled character for character. What depends on the
      case of letters or on the number of characters of a text is stated for
      ASCII text, or left to a parameter that stands for the library
      ([re], [s[:n]]).
    - A pandas frame read by [read_csv] is a list of rows; its index is the
      default RangeIndex, so the label of a row is its position.
    - Exceptions are values of [exn]; a call that may raise returns
      [result A = exn + A].
    - [st.error] appends to a log of [st_msg]; [st.stop] ends the session.
    - scikit-learn's TF-IDF/cosine pipeline, NumPy's [argsort] and the [re]
      engine behind [Series.str.contains] are parameters of the model; the
      properties are proved for every implementation that meets the stated
      contract, and reference instances are given to evaluate the program on
      concrete catalogs. *)

From Stdlib Require Import Bool Arith List String Ascii ZArith QArith Lia.
From Stdlib Require Import Permutation Sorted.
Import ListNotations.

Local Open Scope list_scope.
Local Open Scope string_scope.

(* ================================================================== *)
(** * Part I: the model                                                 *)
(* ================================================================== *)

(** ** Python values, exceptions, Streamlit effects *)

(** Exceptions raised by the library calls the script makes. *)
Inductive exn : Type :=
| IndexError
| ValueError
| AttributeError
| ReError
| OtherError (name : string).

(** Outcome of a call: [inl e] when it raises [e], [inr v] when it returns. *)
Definition result (A : Type) : Type := (exn + A)%type.

Definition ret {A} (a : A) : result A := inr a.
Definition raise {A} (e : exn) : result A := inl e.
Definition bind {A B} (m : result A) (f : A -> result B) : result B :=
  match m with
  | inl e => inl e
  | inr a => f a
  end.

Notation "x <- m ;; k" := (bind m (fun x => k))
  (at level 61, m at next level, right associativity).

(** A cell of the [description] column: a [str], or the missing value
    (a float NaN) that [read_csv] produces for an empty field. *)
Inductive cell : Type :=
| Str (s : string)
| NaN.

Record Row : Type := mkRow { id : string; description : cell }.

(** The frame returned by [read_csv] (RangeIndex: label = position). *)
Definition DataFrame : Type := list Row.

(** A frame obtained by [df.iloc[...]]: each row keeps its index label. *)
Definition Frame : Type := list (nat * Row).

(** Messages shown through [st.error]. *)
Inductive st_msg : Type :=
| ErrorLoadingData (e : exn)       (* f"Error loading the data: {e}" *)
| DatasetEmpty                     (* "The dataset is empty. Try again later." *)
| ErrorFindingRelated (e : exn).   (* f"Error finding related products: {e}" *)

(** A piece of the script: the outcome of its evaluation and what it has
    written to the page through [st.error]. *)
Definition St (A : Type) : Type := (result A * list st_msg)%type.

Definition st_ret {A} (a : A) : St A := (ret a, []).

Definition st_bind {A B} (m : St A) (f : A -> St B) : St B :=
  match m with
  | (inl e, log) => (inl e, log)
  | (inr a, log) => let (r, log') := f a in (r, (log ++ log')%list)
  end.

Notation "x <~ m ;; k" := (st_bind m (fun x => k))
  (at level 61, m at next level, right associativity).

(** [st.error(msg)] *)
Definition st_error (msg : st_msg) : St unit := (ret tt, [msg]).

(** A call that writes nothing. *)
Definition lift {A} (r : result A) : St A := (r, []).

(** [try: body except Exception as e: handler(e)] *)
Definition try_except {A} (body : St A) (handler : exn -> St A) : St A :=
  match body with
  | (inl e, log) => let (r, log') := handler e in (r, (log ++ log')%list)
  | (inr a, log) => (inr a, log)
  end.

(** ** [str.replace] *)

Definition LF : ascii := "010"%char.
Definition nl : string := String LF EmptyString.

(** [replace_from old new skip s]: left-to-right scan of [s]; [skip] counts the
    characters of a match that are still to be consumed. *)
Fixpoint replace_from (old new : string) (skip : nat) (s : string) : string :=
  match s with
  | EmptyString => EmptyString
  | String c s' =>
      match skip with
      | S k => replace_from old new k s'
      | O =>
          if prefix old s
          then new ++ replace_from old new (String.length old - 1) s'
          else String c (replace_from old new 0 s')
      end
  end.

(** With an empty [old], Python inserts [new] before every character and at
    the end. *)
Fixpoint interleave (new s : string) : string :=
  match s with
  | EmptyString => new
  | String c s' => new ++ String c (interleave new s')
  end.

(** [s.replace(old, new)]: every non-overlapping occurrence, leftmost first. *)
Definition str_replace (old new s : string) : string :=
  match old with
  | EmptyString => interleave new s
  | _ => replace_from old new 0 s
  end.

(** ** The description cleaner (lines 145-152; also 124-131 and 202-205) *)

Definition clean_text (description : string) : string :=
  let description := str_replace "<br><br>" (nl ++ nl) description in
  let description := str_replace "</ul>" "" (str_replace "<ul>" "" description) in
  let description := str_replace "</li>" nl (str_replace "<li>" "- " description) in
  description.

(** The cleaner applied to a cell of the frame: a missing description is a
    float, which has no [replace] attribute. *)
Definition clean_description (description : cell) : result string :=
  match description with
  | Str s => ret (clean_text s)
  | NaN => raise AttributeError
  end.

(** [occurs needle hay]: [needle] is a substring of [hay]. *)
Fixpoint occurs (needle hay : string) : bool :=
  prefix needle hay ||
  match hay with
  | EmptyString => false
  | String _ hay' => occurs needle hay'
  end.

(** The markers the cleaner rewrites. *)
Definition markers : list string :=
  ["<br><br>"; "<ul>"; "</ul>"; "<li>"; "</li>"].

Definition markup_free (s : string) : bool :=
  forallb (fun m => negb (occurs m s)) markers.

(** ** pandas and NumPy operations used by the script *)

(** [df.empty] *)
Definition empty {A} (df : list A) : bool :=
  match df with
  | [] => true
  | _ :: _ => false
  end.

(** [Series.fillna(v)] on one cell. *)
Definition fillna (c : cell) (v : string) : string :=
  match c with
  | Str s => s
  | NaN => v
  end.

(** [df[df['id'] == product_id].index]: the labels of the matching rows,
    [pos] being the label of the first row of [df]. *)
Fixpoint matching_index (product_id : string) (df : DataFrame) (pos : nat) : list nat :=
  match df with
  | [] => []
  | r :: df' =>
      if String.eqb (id r) product_id
      then pos :: matching_index product_id df' (S pos)
      else matching_index product_id df' (S pos)
  end.

(** [a[i]] for a non-negative [i]. *)
Definition getitem {A} (a : list A) (i : nat) : result A :=
  match nth_error a i with
  | Some x => ret x
  | None => raise IndexError
  end.

(** [df.iloc[indices]] *)
Fixpoint iloc (df : DataFrame) (indices : list nat) : result Frame :=
  match indices with
  | [] => ret []
  | i :: rest =>
      r <- getitem df i ;;
      fr <- iloc df rest ;;
      ret ((i, r) :: fr)
  end.

(** Python's normalisation of a slice bound against a length [len]. *)
Definition slice_bound (len i : Z) : Z :=
  if (i <? 0)%Z then Z.max 0 (i + len) else Z.min i len.

(** [a[start:stop]] *)
Definition slice {A} (start stop : Z) (a : list A) : list A :=
  let len := Z.of_nat (List.length a) in
  let lo := slice_bound len start in
  let hi := slice_bound len stop in
  firstn (Z.to_nat (hi - lo)) (skipn (Z.to_nat lo) a).

(** The score stored at position [i] of a row of the similarity matrix. *)
Definition score (row : list Q) (i : nat) : Q := nth i row 0%Q.

(** [df["description"].fillna("")] *)
Definition documents (df : DataFrame) : list string :=
  map (fun r => fillna (description r) "") df.

(** ** The recommender (lines 177-191) *)

Section Recommender.

(** [cosine_similarity(TfidfVectorizer(stop_words="english").fit_transform(docs))]:
    the matrix of pairwise scores, or the exception the vectorizer raises. *)
Variable tfidf_cosine : list string -> result (list (list Q)).

(** [ndarray.argsort()] on a row of scores. *)
Variable argsort : list Q -> list nat.

(** Lines 183-187: the positions of the recommended rows. *)
Definition related_indices (product_id : string) (df : DataFrame)
             (num_recommendations : Z) : result (list nat) :=
    similarity_scores <- tfidf_cosine (documents df) ;;
    selected_idx <- getitem (matching_index product_id df 0) 0 ;;
    row <- getitem similarity_scores selected_idx ;;
    ret (rev (slice (- (num_recommendations + 1)) (-1) (argsort row))).

(** The body of the [try] block. *)
Definition find_related_products_try (product_id : string) (df : DataFrame)
             (num_recommendations : Z) : result Frame :=
    related <- related_indices product_id df num_recommendations ;;
    iloc df related.

(** [find_related_products]: any exception is reported through [st.error]
    and the empty frame [pd.DataFrame()] is returned in its place. *)
Definition find_related_products (product_id : string) (df : DataFrame)
             (num_recommendations : Z) : St Frame :=
    try_except
      (lift (find_related_products_try product_id df num_recommendations))
      (fun e => _ <~ st_error (ErrorFindingRelated e) ;; st_ret []).

End Recommender.

(** ** Loading the catalog (lines 13-29) *)

Definition DATA_URL : string :=
  "https://raw.githubusercontent.com/fenago/datasets/refs/heads/main/sample-data.csv".

(** What the script does after [load_data]: it goes on with the frame, or
    [st.stop()] ends the run. *)
Inductive session : Type :=
| Stopped
| Running (df : DataFrame).

Section Loader.

(** [pd.read_csv(url)]: the parsed frame, or the exception of the fetch or
    of the parser. *)
Variable read_csv : string -> result DataFrame.

Definition load_data : St DataFrame :=
    try_except
      (lift (read_csv DATA_URL))
      (fun e => _ <~ st_error (ErrorLoadingData e) ;; st_ret []).

(** Lines 25-29: [df = load_data()], then the check that stops the run. *)
Definition startup : St session :=
    df <~ load_data ;;
    if empty df
    then _ <~ st_error DatasetEmpty ;; st_ret Stopped
    else st_ret (Running df).

End Loader.

(** ** The sidebar search (lines 218-227) *)

Section Search.

(** [re.compile(pat, flags=re.IGNORECASE)] followed by [regex.search]:
    the compiled matcher, or [re.error]. [Series.str.contains] treats its
    pattern as a regular expression ([regex=True] is the default). *)
Variable re_compile : string -> result (string -> bool).

(** [Series.str.contains(pat, case=False, na=False)] *)
Definition str_contains (col : list cell) (pat : string) : result (list bool) :=
    regex <- re_compile pat ;;
    ret (map (fun c => match c with
                       | Str s => regex s
                       | NaN => false
                       end) col).

(** [df[mask]] for a boolean mask. *)
Definition boolean_index (df : DataFrame) (mask : list bool) : DataFrame :=
    map fst (filter snd (combine df mask)).

(** [search_results]; when [search_query] is empty the block is skipped and
    nothing is listed. *)
Definition search (df : DataFrame) (search_query : string) : result DataFrame :=
    match search_query with
    | EmptyString => ret []
    | _ =>
        mask <- str_contains (map description df) search_query ;;
        ret (boolean_index df mask)
    end.

End Search.

(** ** What the specification calls a case-insensitive substring *)

Definition is_upper (c : ascii) : bool :=
  (65 <=? nat_of_ascii c)%nat && (nat_of_ascii c <=? 90)%nat.

Definition to_lower (c : ascii) : ascii :=
  if is_upper c then ascii_of_nat (nat_of_ascii c + 32) else c.

Fixpoint lower (s : string) : string :=
  match s with
  | EmptyString => EmptyString
  | String c s' => String (to_lower c) (lower s')
  end.

(** [query] occurs in [text] as a literal substring, letters compared without
    regard to case. *)
Definition contains_ci (query text : string) : bool :=
  occurs (lower query) (lower text).

(** The characters that [re] reads as operators. *)
Definition special_chars : string := ".^$*+?{}[]\|()".

Fixpoint mem_char (c : ascii) (s : string) : bool :=
  match s with
  | EmptyString => false
  | String d s' => Ascii.eqb c d || mem_char c s'
  end.

Fixpoint no_special (pat : string) : bool :=
  match pat with
  | EmptyString => true
  | String c pat' => negb (mem_char c special_chars) && no_special pat'
  end.

(** ** Reference instances of the library parameters *)

(** NumPy's default [argsort] (kind [quicksort]), in its plain C
    implementation, sorts a range of at most 16 elements by insertion: an index
    moves left past the indices whose score is strictly greater.
    [insert_index] is one such insertion. Other builds may order equal scores
    differently, which [argsort_contract] below allows. *)
Fixpoint insert_index (row : list Q) (i : nat) (sorted : list nat) : list nat :=
  match sorted with
  | [] => [i]
  | j :: sorted' =>
      if Qle_bool (score row j) (score row i)
      then j :: insert_index row i sorted'
      else i :: sorted
  end.

Definition argsort_insertion (row : list Q) : list nat :=
  fold_left (fun sorted i => insert_index row i sorted) (seq 0 (List.length row)) [].

(** A similarity that knows two scores only: 1 between equal descriptions that
    are not empty, 0 otherwise; it raises, as the vectorizer does on an empty
    vocabulary, when every description is empty. scikit-learn gives the same
    ranking on a catalog whose descriptions are pairwise equal or without a
    common term. *)
Definition exact_match_score (d1 d2 : string) : Q :=
  if String.eqb d1 d2 && negb (String.eqb d1 "") then 1%Q else 0%Q.

Definition exact_match_cosine (docs : list string) : result (list (list Q)) :=
  if forallb (String.eqb "") docs then raise ValueError
  else ret (map (fun d1 => map (exact_match_score d1) docs) docs).

(** A matcher for the patterns made of ordinary characters and of [.]
    (any character but a newline), letters compared without regard to case.
    Patterns with another operator are outside this instance, which answers
    [re.error] for them. *)
Inductive atom : Type :=
| Lit (c : ascii)
| AnyChar.

Fixpoint parse_atoms (pat : string) : option (list atom) :=
  match pat with
  | EmptyString => Some []
  | String c pat' =>
      match parse_atoms pat' with
      | None => None
      | Some atoms =>
          if Ascii.eqb c "."%char then Some (AnyChar :: atoms)
          else if mem_char c special_chars then None
          else Some (Lit c :: atoms)
      end
  end.

Definition atom_matches (a : atom) (c : ascii) : bool :=
  match a with
  | Lit l => Ascii.eqb (to_lower l) (to_lower c)
  | AnyChar => negb (Ascii.eqb c LF)
  end.

Fixpoint match_here (atoms : list atom) (s : string) : bool :=
  match atoms, s with
  | [], _ => true
  | _ :: _, EmptyString => false
  | a :: atoms', String c s' => atom_matches a c && match_here atoms' s'
  end.

Fixpoint match_anywhere (atoms : list atom) (s : string) : bool :=
  match_here atoms s ||
  match s with
  | EmptyString => false
  | String _ s' => match_anywhere atoms s'
  end.

Definition re_literal_dot (pat : string) : result (string -> bool) :=
  match parse_atoms pat with
  | Some atoms => ret (match_anywhere atoms)
  | None => raise ReError
  end.

(** ** Example catalogs *)

(** The catalog of the specification's example. *)
Definition catalog_spec : DataFrame :=
  [ mkRow "A" (Str "<ul><li>red</li><li>shoe</li></ul>");
    mkRow "B" (Str "<ul><li>red</li><li>shirt</li></ul>");
    mkRow "C" (Str "blue hat") ].

(** Two products with the same description, then a third one. *)
Definition catalog_dup : DataFrame :=
  [ mkRow "A" (Str "red shoe");
    mkRow "B" (Str "red shoe");
    mkRow "C" (Str "blue hat") ].

(** Two products with the same description and nothing else. *)
Definition catalog_twins : DataFrame :=
  [ mkRow "A" (Str "red shoe");
    mkRow "B" (Str "red shoe") ].

(** Three descriptions without a common term. *)
Definition catalog_distinct : DataFrame :=
  [ mkRow "A" (Str "red shoe");
    mkRow "B" (Str "blue hat");
    mkRow "C" (Str "green sock") ].

(** Two rows whose description field is empty in the CSV file. *)
Definition catalog_missing : DataFrame :=
  [ mkRow "A" NaN; mkRow "B" NaN ].

(** ** Contracts of the library parameters, and the words of the claims *)

(** [order] lists positions of [row] by non-decreasing score. *)
Definition ascending (row : list Q) (order : list nat) : Prop :=
  StronglySorted (fun i j => score row i <= score row j)%Q order.

(** [order] lists positions of [row] by non-increasing score. *)
Definition descending (row : list Q) (order : list nat) : Prop :=
  StronglySorted (fun i j => score row j <= score row i)%Q order.

(** What NumPy documents of [argsort]: the indices that sort the array. The
    order of equal elements is not part of it for the default kind. *)
Definition argsort_contract (argsort : list Q -> list nat) : Prop :=
  forall row,
    Permutation (argsort row) (seq 0 (List.length row)) /\
    ascending row (argsort row).

(** [cosine_similarity] of [n] documents is an [n] by [n] matrix. *)
Definition cosine_contract (tfidf_cosine : list string -> result (list (list Q))) : Prop :=
  forall docs M,
    tfidf_cosine docs = ret M ->
    List.length M = List.length docs /\
    Forall (fun row => List.length row = List.length docs) M.

(** ASCII text: every character has a code below 128. *)
Definition is_ascii_char (c : ascii) : bool := (nat_of_ascii c <? 128)%nat.

Fixpoint is_ascii (s : string) : bool :=
  match s with
  | EmptyString => true
  | String c s' => is_ascii_char c && is_ascii s'
  end.

(** The description of a row, read as text, is ASCII. *)
Definition ascii_description (r : Row) : bool := is_ascii (fillna (description r) "").

(** An ASCII pattern without operator characters matches ASCII text as a
    literal, letters compared without regard to case ([re.IGNORECASE]). How
    letters outside ASCII are folded is left to the engine. *)
Definition re_literal_contract (re_compile : string -> result (string -> bool)) : Prop :=
  forall pat,
    no_special pat = true ->
    is_ascii pat = true ->
    exists regex,
      re_compile pat = ret regex /\
      forall s, is_ascii s = true -> regex s = contains_ci pat s.

(** The rows of [df] at the given positions, with their labels. *)
Definition rows_at (df : DataFrame) (indices : list nat) : Frame :=
  flat_map (fun i => match nth_error df i with
                     | Some r => [(i, r)]
                     | None => []
                     end) indices.

(** The rows of [df] other than the one at position [idx], with their labels. *)
Definition others (idx : nat) (df : DataFrame) : Frame :=
  rows_at df (filter (fun i => negb (i =? idx)%nat) (seq 0 (List.length df))).


Definition has_description (r : Row) : bool :=
  match description r with
  | Str _ => true
  | NaN => false
  end.

(** Rows of equal score come in the order of the catalog. *)
Definition ties_in_catalog_order (row : list Q) (order : list nat) : Prop :=
  StronglySorted (fun i j => (score row i == score row j)%Q -> (i < j)%nat) order.

(** ** The rest of the page: selection and the lists it shows *)

(** [Series.unique()]: the distinct values, in the order of their first
    appearance (line 138, the options of the select box). *)
Fixpoint unique (values : list string) : list string :=
  match values with
  | [] => []
  | v :: rest => v :: filter (fun w => negb (String.eqb w v)) (unique rest)
  end.

(** Line 140: [df[df['id'] == product_id].iloc[0]]. *)
Definition selected_product (product_id : string) (df : DataFrame) : result Row :=
  getitem (filter (fun r => String.eqb (id r) product_id) df) 0.

(** What the script writes below the selection and in the sidebar. *)
Inductive widget : Type :=
| RecommendedHeader (product : string)      (* st.subheader(f"Recommended: {row['id']}") *)
| DescriptionExpander (body : string)       (* the expander with f"Description:\n\n{description}" *)
| Separator                                 (* st.markdown("---") *)
| NoRecommendations                         (* "No recommendations found. Try another product!" *)
| SidebarFound (n : nat)                    (* f"Found *{len(search_results)}* matching products:" *)
| SidebarMatch (product excerpt : string)   (* f"- {row['id']}: {row['description'][:50]}..." *)
| SidebarNoMatch.                           (* "No matching products found. Try another keyword!" *)

(** A run of statements that write to the page: what has been written, and
    the exception that ended the run, if any. *)
Definition Page : Type := (list widget * option exn)%type.

Definition page_seq (p q : Page) : Page :=
  match p with
  | (ws, Some e) => (ws, Some e)
  | (ws, None) => let (ws', r) := q in ((ws ++ ws')%list, r)
  end.

(** [for x in l: body(x)] *)
Fixpoint for_each {A} (body : A -> Page) (l : list A) : Page :=
  match l with
  | [] => ([], None)
  | x :: l' => page_seq (body x) (for_each body l')
  end.

(** Lines 199-211, the body of the loop over [related_products.iterrows()]. *)
Definition show_recommendation (row : Row) : Page :=
  page_seq ([RecommendedHeader (id row)], None)
    (match clean_description (description row) with
     | inl e => ([], Some e)
     | inr description => ([DescriptionExpander description; Separator], None)
     end).

(** Lines 197-213. *)
Definition show_recommendations (related_products : Frame) : Page :=
  if negb (empty related_products)
  then for_each (fun labelled => show_recommendation (snd labelled)) related_products
  else ([NoRecommendations], None).

Section Sidebar.

Variable re_compile : string -> result (string -> bool).

(** [s[:n]] on a [str]: its first [n] characters. *)
Variable str_take : nat -> string -> string.

(** [row['description'][:50]]: a float cannot be sliced. *)
Definition excerpt (description : cell) : result string :=
  match description with
  | Str s => ret (str_take 50 s)
  | NaN => raise (OtherError "TypeError")
  end.

(** Line 225, the body of the loop over [search_results.iterrows()]. *)
Definition show_match (row : Row) : Page :=
  match excerpt (description row) with
  | inl e => ([], Some e)
  | inr text => ([SidebarMatch (id row) text], None)
  end.

(** Lines 220-227. *)
Definition sidebar_search (df : DataFrame) (search_query : string) : Page :=
  match search_query with
  | EmptyString => ([], None)
  | _ =>
      match search re_compile df search_query with
      | inl e => ([], Some e)
      | inr search_results =>
          if negb (empty search_results)
          then page_seq ([SidebarFound (List.length search_results)], None)
                        (for_each show_match search_results)
          else ([SidebarNoMatch], None)
      end
  end.

End Sidebar.

(** ** Marked-up text as a sequence of pieces *)

(** A piece of a description: text, or one of the markers. *)
Inductive piece : Type :=
| Plain (s : string)
| Tag (m : string).

Definition piece_text (p : piece) : string :=
  match p with
  | Plain s => s
  | Tag m => m
  end.

Fixpoint render (pieces : list piece) : string :=
  match pieces with
  | [] => ""
  | p :: pieces' => piece_text p ++ render pieces'
  end.

(** Text without an opening angle bracket. *)
Definition plain (s : string) : bool := negb (mem_char "<"%char s).

(** What the cleaner puts in the place of each marker. *)
Definition replacement (m : string) : string :=
  if String.eqb m "<br><br>" then nl ++ nl
  else if String.eqb m "<li>" then "- "
  else if String.eqb m "</li>" then nl
  else "".

Definition clean_piece (p : piece) : piece :=
  match p with
  | Plain s => Plain s
  | Tag m => Plain (replacement m)
  end.

Definition well_formed (p : piece) : bool :=
  match p with
  | Plain s => plain s
  | Tag m => existsb (String.eqb m) markers
  end.

(** One pass of [str.replace] seen on the pieces. *)
Definition subst_piece (old new : string) (p : piece) : piece :=
  match p with
  | Plain s => Plain s
  | Tag m => if String.eqb m old then Plain new else Tag m
  end.

(** The pieces whose tags are among [tags], with text free of brackets. *)
Definition piece_over (tags : list string) (p : piece) : Prop :=
  match p with
  | Plain s => plain s = true
  | Tag m => In m tags
  end.

(* ================================================================== *)
(** * Part II: properties                                               *)
(* ================================================================== *)

(** ** [str.replace] *)

Lemma prefix_length (p s : string) :
  prefix p s = true -> (String.length p <= String.length s)%nat.
Proof.
  revert s; induction p as [|a p IH]; intros [|b s]; simpl; try lia; try discriminate.
  destruct (ascii_dec a b); [|discriminate].
  intros H; apply IH in H; lia.
Qed.

Lemma substring_all (t : string) : substring 0 (String.length t) t = t.
Proof. induction t as [|x t IHt]; simpl; congruence. Qed.

(** The scan skips exactly [skip] characters before it looks for [old] again. *)
Lemma replace_from_skip (old new : string) (skip : nat) (s : string) :
  (skip <= String.length s)%nat ->
  replace_from old new skip s =
  replace_from old new 0 (substring skip (String.length s - skip) s).
Proof.
  revert skip; induction s as [|c s IH]; intros skip Hk.
  - destruct skip; reflexivity.
  - destruct skip as [|k].
    + rewrite Nat.sub_0_r, substring_all. reflexivity.
    + simpl in Hk. cbn [replace_from String.length Nat.sub substring].
      apply IH. lia.
Qed.

(** The three equations of the textbook definition of [replace]: nothing to do
    on the empty string; at an occurrence, emit [new] and resume after it;
    elsewhere, copy one character. *)
Lemma str_replace_nil (old new : string) :
  old <> "" -> str_replace old new "" = "".
Proof. destruct old; [congruence | reflexivity]. Qed.

Lemma str_replace_match (old new s : string) :
  old <> "" -> prefix old s = true ->
  str_replace old new s =
  new ++ str_replace old new
           (substring (String.length old) (String.length s - String.length old) s).
Proof.
  intros Hold Hp. pose proof (prefix_length _ _ Hp) as Hlen.
  destruct old as [|a old]; [congruence|]. unfold str_replace.
  destruct s as [|c s]; [simpl in Hlen; lia|].
  cbn [replace_from]. rewrite Hp. f_equal.
  cbn [String.length] in *.
  replace (S (String.length old) - 1)%nat with (String.length old) by lia.
  rewrite replace_from_skip by lia. reflexivity.
Qed.

Lemma str_replace_skip (old new : string) (c : ascii) (s : string) :
  old <> "" -> prefix old (String c s) = false ->
  str_replace old new (String c s) = String c (str_replace old new s).
Proof.
  intros Hold Hp. destruct old as [|a old]; [congruence|]. unfold str_replace.
  cbn [replace_from]. rewrite Hp. reflexivity.
Qed.

(** A string in which [old] does not occur is left as it is. *)
Lemma str_replace_absent (old new s : string) :
  occurs old s = false -> str_replace old new s = s.
Proof.
  destruct old as [|a old].
  - destruct s; simpl; discriminate.
  - unfold str_replace. induction s as [|c s IH]; intros H; [reflexivity|].
    cbn [occurs] in H. apply orb_false_iff in H as [Hp Hs].
    cbn [replace_from]. rewrite Hp, (IH Hs). reflexivity.
Qed.

Lemma clean_text_markup_free (x : string) :
  markup_free x = true -> clean_text x = x.
Proof.
  unfold markup_free, markers. cbn [forallb].
  rewrite !andb_true_iff, !negb_true_iff.
  intros (H1 & H2 & H3 & H4 & H5 & _).
  unfold clean_text.
  rewrite (str_replace_absent _ _ _ H1), (str_replace_absent _ _ _ H2),
    (str_replace_absent _ _ _ H3), (str_replace_absent _ _ _ H4),
    (str_replace_absent _ _ _ H5).
  reflexivity.
Qed.

(** C4, as stated, fails: cleaning ["<u<ul>l>"] removes the inner list marker
    and leaves ["<ul>"], which a second cleaning removes. *)
Lemma clean_text_not_idempotent :
  clean_text (clean_text "<u<ul>l>") <> clean_text "<u<ul>l>".
Proof. vm_compute. discriminate. Qed.

(** C8: the empty description is cleaned to the empty string, but a missing
    description makes the cleaner raise [AttributeError]. *)
Theorem clean_description_missing_raises :
  clean_description (Str "") = ret "" /\
  clean_description NaN = raise AttributeError /\
  documents [mkRow "A" NaN] = [""].
Proof. repeat split. Qed.

(** ** Loading the catalog *)

(** C9: when [read_csv] raises, the loading error is reported, [load_data]
    hands back an empty frame, the empty-dataset error is reported in turn and
    the run is stopped; when [read_csv] yields a frame without rows, the
    empty-dataset error alone is reported and the run is stopped; otherwise
    nothing is reported and the run goes on with the frame read, which has at
    least one row. *)
Theorem startup_outcomes (read_csv : string -> result DataFrame) :
  (forall e, read_csv DATA_URL = raise e ->
             load_data read_csv = (ret [], [ErrorLoadingData e]) /\
             startup read_csv = (ret Stopped, [ErrorLoadingData e; DatasetEmpty])) /\
  (read_csv DATA_URL = ret [] ->
   startup read_csv = (ret Stopped, [DatasetEmpty])) /\
  (forall df, read_csv DATA_URL = ret df -> df <> [] ->
              startup read_csv = (ret (Running df), []) /\ empty df = false).
Proof.
  unfold startup, load_data, try_except, lift, raise, ret.
  split; [|split].
  - intros e ->. split; reflexivity.
  - intros ->. reflexivity.
  - intros df -> Hne. destruct df as [|r df]; [congruence|]. split; reflexivity.
Qed.

Lemma startup_outcomes_witness :
  startup (fun _ => raise (OtherError "URLError")) =
    (ret Stopped, [ErrorLoadingData (OtherError "URLError"); DatasetEmpty]) /\
  startup (fun _ => ret []) = (ret Stopped, [DatasetEmpty]) /\
  startup (fun _ => ret catalog_spec) = (ret (Running catalog_spec), []).
Proof.
  split; [|split].
  - apply (startup_outcomes (fun _ => raise (OtherError "URLError"))). reflexivity.
  - apply (startup_outcomes (fun _ => ret [])). reflexivity.
  - apply (startup_outcomes (fun _ => ret catalog_spec)); [reflexivity | discriminate].
Defined.

(** ** The sidebar search *)

Lemma boolean_index_map (g : Row -> bool) (f : cell -> bool) (df : DataFrame) :
  (forall r, g r = f (description r)) ->
  boolean_index df (map f (map description df)) = filter g df.
Proof.
  intros Hg. unfold boolean_index.
  induction df as [|r df IH]; [reflexivity|].
  cbn [map combine filter]. rewrite (Hg r). cbn [snd].
  destruct (f (description r)); cbn [map fst]; rewrite IH; reflexivity.
Qed.

(** The result of the search, whatever the engine: the rows selected by the
    compiled pattern among those that have a description. *)
Lemma search_unfold (re_compile : string -> result (string -> bool))
      (df : DataFrame) (c : ascii) (q : string) :
  search re_compile df (String c q) =
  regex <- re_compile (String c q) ;;
  ret (filter (fun r => match description r with
                        | Str s => regex s
                        | NaN => false
                        end) df).
Proof.
  unfold search, str_contains, bind.
  destruct (re_compile (String c q)) as [e|regex]; [reflexivity|].
  unfold ret. f_equal. apply boolean_index_map. reflexivity.
Qed.

Lemma filter_filter {A} (f g : A -> bool) (l : list A) :
  (forall x, f x = true -> g x = true) ->
  filter f (filter g l) = filter f l.
Proof.
  intros H. induction l as [|x l IH]; [reflexivity|].
  cbn [filter]. destruct (g x) eqn:Eg; cbn [filter].
  - rewrite IH. reflexivity.
  - destruct (f x) eqn:Ef; [rewrite (H x Ef) in Eg; discriminate | exact IH].
Qed.

(** C10: a row whose description is missing is never listed; the search gives
    what it would give on the catalog without such rows, so a missing
    description neither matches any pattern nor makes the search raise. *)
Theorem search_skips_missing (re_compile : string -> result (string -> bool))
        (df : DataFrame) (search_query : string) :
  search re_compile df search_query =
    search re_compile (filter has_description df) search_query /\
  Forall (fun r => has_description r = true)
         (match search re_compile df search_query with
          | inr search_results => search_results
          | inl _ => []
          end).
Proof.
  destruct search_query as [|c q].
  - split; [reflexivity | constructor].
  - rewrite !search_unfold. unfold bind.
    destruct (re_compile (String c q)) as [e|regex].
    + split; [reflexivity | constructor].
    + split.
      * unfold ret. f_equal. symmetry. apply filter_filter.
        intros r. unfold has_description. destruct (description r); congruence.
      * unfold ret. apply Forall_forall. intros r Hr.
        apply filter_In in Hr as [_ Hr]. unfold has_description.
        destruct (description r); congruence.
Qed.

Lemma mem_char_dot : mem_char "."%char special_chars = true.
Proof. reflexivity. Qed.

Lemma parse_atoms_literal (pat : string) :
  no_special pat = true ->
  parse_atoms pat = Some (map Lit (list_ascii_of_string pat)).
Proof.
  induction pat as [|c pat IH]; [reflexivity|].
  cbn [no_special parse_atoms list_ascii_of_string map].
  intros H. apply andb_true_iff in H as [Hc Hp]. rewrite (IH Hp).
  apply negb_true_iff in Hc.
  destruct (Ascii.eqb c ".") eqn:E.
  - apply Ascii.eqb_eq in E. subst c. rewrite mem_char_dot in Hc. discriminate.
  - rewrite Hc. reflexivity.
Qed.

Lemma match_here_literal (pat s : string) :
  match_here (map Lit (list_ascii_of_string pat)) s = prefix (lower pat) (lower s).
Proof.
  revert s. induction pat as [|c pat IH]; intros [|d s]; try reflexivity.
  cbn [list_ascii_of_string map match_here lower prefix atom_matches].
  rewrite IH. destruct (ascii_dec (to_lower c) (to_lower d)) as [E|E].
  - rewrite E, Ascii.eqb_refl. reflexivity.
  - apply Ascii.eqb_neq in E. rewrite E. reflexivity.
Qed.

Lemma match_anywhere_literal (pat s : string) :
  match_anywhere (map Lit (list_ascii_of_string pat)) s = contains_ci pat s.
Proof.
  unfold contains_ci. induction s as [|d s IH].
  - cbn [match_anywhere lower occurs]. rewrite match_here_literal. reflexivity.
  - cbn [match_anywhere lower occurs]. rewrite match_here_literal, IH. reflexivity.
Qed.

(** The reference matcher meets the contract on literal patterns. *)
Lemma re_literal_dot_contract : re_literal_contract re_literal_dot.
Proof.
  intros pat H _. unfold re_literal_dot. rewrite (parse_atoms_literal pat H).
  eexists. split; [reflexivity|]. intros s _. apply match_anywhere_literal.
Qed.




(** ** Lists, slices and frames *)

Section ListFacts.

Context {A : Type}.
Variable R : A -> A -> Prop.

Lemma StronglySorted_app (l1 l2 : list A) :
    StronglySorted R l1 -> StronglySorted R l2 ->
    (forall x y, In x l1 -> In y l2 -> R x y) ->
    StronglySorted R (l1 ++ l2).
  Proof.
    induction l1 as [|a l1 IH]; intros H1 H2 H12; [exact H2|].
    apply StronglySorted_inv in H1 as [H1 Ha]. cbn [app]. constructor.
    - apply IH; [exact H1 | exact H2 | intros x y Hx; apply H12; right; exact Hx].
    - apply Forall_app. split; [exact Ha|].
      apply Forall_forall. intros y Hy. apply H12; [left; reflexivity | exact Hy].
  Qed.

Lemma StronglySorted_app_inv (l1 l2 : list A) :
    StronglySorted R (l1 ++ l2) ->
    StronglySorted R l1 /\ StronglySorted R l2 /\
    (forall x y, In x l1 -> In y l2 -> R x y).
  Proof.
    induction l1 as [|a l1 IH]; intros H.
    - split; [constructor | split; [exact H | intros x y []]].
    - cbn [app] in H. apply StronglySorted_inv in H as [H Ha].
      destruct (IH H) as (S1 & S2 & S12). apply Forall_app in Ha as [Ha1 Ha2].
      split; [constructor; assumption | split; [exact S2|]].
      intros x y [<-|Hx] Hy.
      + rewrite Forall_forall in Ha2. apply Ha2, Hy.
      + apply S12; assumption.
  Qed.

Lemma StronglySorted_firstn (n : nat) (l : list A) :
    StronglySorted R l -> StronglySorted R (firstn n l).
  Proof.
    intros H. rewrite <- (firstn_skipn n l) in H.
    apply StronglySorted_app_inv in H. tauto.
  Qed.

Lemma StronglySorted_skipn (n : nat) (l : list A) :
    StronglySorted R l -> StronglySorted R (skipn n l).
  Proof.
    intros H. rewrite <- (firstn_skipn n l) in H.
    apply StronglySorted_app_inv in H. tauto.
  Qed.

End ListFacts.

Lemma StronglySorted_rev {A} (R : A -> A -> Prop) (l : list A) :
  StronglySorted R l -> StronglySorted (fun x y => R y x) (rev l).
Proof.
  induction 1 as [|a l Hl IH Ha]; [constructor|].
  cbn [rev]. apply StronglySorted_app.
  - exact IH.
  - repeat constructor.
  - intros x y Hx [<-|[]]. apply in_rev in Hx.
    rewrite Forall_forall in Ha. apply Ha, Hx.
Qed.

(** A slice is a run of consecutive elements of the list. *)
Lemma slice_In {A} (start stop : Z) (a : list A) (x : A) :
  In x (slice start stop a) -> In x a.
Proof.
  unfold slice. intros H.
  set (n := Z.to_nat (_ - _)) in H. set (lo := Z.to_nat _) in H.
  rewrite <- (firstn_skipn lo a). apply in_or_app. right.
  rewrite <- (firstn_skipn n (skipn lo a)). apply in_or_app. left. exact H.
Qed.

Lemma slice_sorted {A} (R : A -> A -> Prop) (start stop : Z) (a : list A) :
  StronglySorted R a -> StronglySorted R (slice start stop a).
Proof.
  intros H. unfold slice. apply StronglySorted_firstn, StronglySorted_skipn, H.
Qed.

Lemma slice_NoDup {A} (start stop : Z) (a : list A) :
  NoDup a -> NoDup (slice start stop a).
Proof.
  intros H. unfold slice.
  set (n := Z.to_nat (_ - _)). set (lo := Z.to_nat _).
  rewrite <- (firstn_skipn lo a) in H. apply NoDup_app_remove_l in H.
  rewrite <- (firstn_skipn n (skipn lo a)) in H.
  apply NoDup_app_remove_r in H. exact H.
Qed.

(** The slice of the source, [a[-(n + 1):-1]] with [n >= 0]: the last [n]
    elements of [a] without its last one. *)
Lemma slice_recommendations {A} (n : Z) (a : list A) :
  (0 <= n)%Z ->
  slice (- (n + 1)) (-1) a =
  skipn (List.length a - 1 - Z.to_nat n) (removelast a).
Proof.
  intros Hn. unfold slice, slice_bound.
  destruct (Z.ltb_spec (- (n + 1)) 0) as [_|H]; [|lia].
  destruct (Z.ltb_spec (-1) 0) as [_|H]; [|lia].
  rewrite removelast_firstn_len.
  destruct a as [|x a].
  - rewrite ?skipn_nil, ?firstn_nil, ?skipn_nil. reflexivity.
  - set (len := List.length (x :: a)).
    assert (Hlen : (0 < len)%nat) by (unfold len; cbn [List.length]; lia).
    rewrite firstn_skipn_comm. f_equal; [lia|]. f_equal. lia.
Qed.

Lemma matching_index_bounds (product_id : string) (df : DataFrame) (pos i : nat) :
  In i (matching_index product_id df pos) ->
  (pos <= i < pos + List.length df)%nat.
Proof.
  revert pos. induction df as [|r df IH]; intros pos; cbn [matching_index List.length].
  - intros [].
  - destruct (String.eqb (id r) product_id).
    + intros [<-|H]; [lia | apply IH in H; lia].
    + intros H. apply IH in H. lia.
Qed.

(** [df[df['id'] == product_id]] is empty exactly when the id is absent. *)
Lemma matching_index_nil (product_id : string) (df : DataFrame) (pos : nat) :
  matching_index product_id df pos = [] <-> ~ In product_id (map id df).
Proof.
  revert pos. induction df as [|r df IH]; intros pos; cbn [matching_index map In].
  - tauto.
  - destruct (String.eqb_spec (id r) product_id) as [E|E].
    + split; [discriminate | intros H; exfalso; apply H; left; exact E].
    + rewrite IH. tauto.
Qed.

(** [.index[0]] succeeds on a present id and gives a position of the frame. *)
Lemma selected_idx_present (product_id : string) (df : DataFrame) :
  In product_id (map id df) ->
  exists selected_idx,
    getitem (matching_index product_id df 0) 0 = ret selected_idx /\
    (selected_idx < List.length df)%nat.
Proof.
  intros Hin. destruct (matching_index product_id df 0) as [|i rest] eqn:E.
  - apply matching_index_nil in E. contradiction.
  - exists i. split; [reflexivity|].
    assert (H : In i (matching_index product_id df 0)) by (rewrite E; left; reflexivity).
    apply matching_index_bounds in H. lia.
Qed.

Lemma selected_idx_absent (product_id : string) (df : DataFrame) :
  ~ In product_id (map id df) ->
  getitem (matching_index product_id df 0) 0 = raise IndexError.
Proof.
  intros H. apply (matching_index_nil _ _ 0) in H. rewrite H. reflexivity.
Qed.

(** [iloc] on positions of the frame returns the rows at these positions. *)
Lemma iloc_in_range (df : DataFrame) (indices : list nat) :
  Forall (fun i => (i < List.length df)%nat) indices ->
  iloc df indices = ret (rows_at df indices) /\
  map fst (rows_at df indices) = indices.
Proof.
  induction 1 as [|i indices Hi _ [IH1 IH2]]; [split; reflexivity|].
  apply nth_error_Some in Hi.
  unfold rows_at in *. cbn [iloc flat_map]. unfold getitem.
  destruct (nth_error df i) as [r|]; [|congruence].
  cbn [bind ret]. rewrite IH1. cbn [bind ret app map fst]. rewrite IH2.
  split; reflexivity.
Qed.

Lemma rows_at_lookup (df : DataFrame) (indices : list nat) (p : nat * Row) :
  In p (rows_at df indices) -> nth_error df (fst p) = Some (snd p) /\ In (fst p) indices.
Proof.
  unfold rows_at. intros H. apply in_flat_map in H as (i & Hi & H).
  destruct (nth_error df i) as [r|] eqn:E; [|destruct H].
  destruct H as [<-|[]]. split; assumption.
Qed.

Lemma slice_excludes_last {A} (start : Z) (a : list A) (x : A) :
  In x (slice start (-1) a) -> In x (removelast a).
Proof.
  unfold slice. rewrite removelast_firstn_len, <- Nat.sub_1_r.
  assert (Hlo : (0 <= slice_bound (Z.of_nat (List.length a)) start)%Z).
  { unfold slice_bound. destruct (Z.ltb_spec start 0); lia. }
  revert Hlo. generalize (slice_bound (Z.of_nat (List.length a)) start). intros lo Hlo.
  assert (Hhi : slice_bound (Z.of_nat (List.length a)) (-1)
                = Z.of_nat (List.length a - 1)).
  { unfold slice_bound. destruct (Z.ltb_spec (-1) 0); lia. }
  rewrite Hhi.
  destruct (Nat.le_gt_cases (Z.to_nat lo) (List.length a - 1)) as [Hle|Hgt].
  - rewrite firstn_skipn_comm.
    replace (Z.to_nat lo + Z.to_nat (Z.of_nat (List.length a - 1) - lo))%nat
      with (List.length a - 1)%nat by lia.
    intros H. rewrite <- (firstn_skipn (Z.to_nat lo) (firstn (List.length a - 1) a)).
    apply in_or_app. right. exact H.
  - replace (Z.to_nat (Z.of_nat (List.length a - 1) - lo)) with 0%nat by lia.
    intros [].
Qed.

Lemma rows_at_length (df : DataFrame) (indices : list nat) :
  Forall (fun i => (i < List.length df)%nat) indices ->
  List.length (rows_at df indices) = List.length indices.
Proof.
  intros H. apply iloc_in_range in H as [_ H].
  rewrite <- H at 2. rewrite length_map. reflexivity.
Qed.

(** ** The reference instances meet their contracts *)

Lemma insert_index_perm (row : list Q) (i : nat) (sorted : list nat) :
  Permutation (insert_index row i sorted) (i :: sorted).
Proof.
  induction sorted as [|j sorted IH]; cbn [insert_index]; [reflexivity|].
  destruct (Qle_bool (score row j) (score row i)); [|reflexivity].
  rewrite IH. apply perm_swap.
Qed.

Lemma insert_index_ascending (row : list Q) (i : nat) (sorted : list nat) :
  ascending row sorted -> ascending row (insert_index row i sorted).
Proof.
  unfold ascending. induction 1 as [|j sorted Hs IH Hj]; cbn [insert_index].
  - repeat constructor.
  - destruct (Qle_bool (score row j) (score row i)) eqn:E.
    + constructor; [exact IH|].
      apply (Permutation_Forall (Permutation_sym (insert_index_perm row i sorted))).
      constructor; [apply Qle_bool_iff; exact E | exact Hj].
    + assert (Hlt : (score row i < score row j)%Q).
      { apply Qnot_le_lt. intros H. apply Qle_bool_iff in H. congruence. }
      constructor; [constructor; assumption|].
      constructor; [apply Qlt_le_weak; exact Hlt|].
      eapply Forall_impl; [|exact Hj]. cbv beta. intros k Hk.
      eapply Qle_trans; [apply Qlt_le_weak; exact Hlt | exact Hk].
Qed.

Lemma insertion_fold (row : list Q) (todo sorted : list nat) :
  ascending row sorted ->
  let order := fold_left (fun sorted i => insert_index row i sorted) todo sorted in
  Permutation order (sorted ++ todo) /\ ascending row order.
Proof.
  revert sorted. induction todo as [|i todo IH]; intros sorted Hs; cbn [fold_left].
  - rewrite app_nil_r. split; [reflexivity | exact Hs].
  - destruct (IH (insert_index row i sorted) (insert_index_ascending row i sorted Hs))
      as [Hp Ha].
    split; [|exact Ha]. cbv zeta in Hp. rewrite Hp, insert_index_perm.
    apply Permutation_middle.
Qed.

Lemma argsort_insertion_contract : argsort_contract argsort_insertion.
Proof.
  intros row. unfold argsort_insertion.
  destruct (insertion_fold row (seq 0 (List.length row)) []) as [Hp Ha].
  - constructor.
  - split; assumption.
Qed.

Lemma exact_match_cosine_contract : cosine_contract exact_match_cosine.
Proof.
  intros docs M. unfold exact_match_cosine.
  destruct (forallb (String.eqb "") docs); [discriminate|].
  intros [= <-]. rewrite length_map. split; [reflexivity|].
  apply Forall_forall. intros row Hrow.
  apply in_map_iff in Hrow as (d & <- & _). apply length_map.
Qed.

(** ** The recommender *)

Section RecommenderFacts.

Variable tfidf_cosine : list string -> result (list (list Q)).
Variable argsort : list Q -> list nat.
Hypothesis cosine_ok : cosine_contract tfidf_cosine.
Hypothesis argsort_ok : argsort_contract argsort.

Lemma argsort_range (row : list Q) (i : nat) :
    In i (argsort row) <-> (i < List.length row)%nat.
  Proof.
    destruct (argsort_ok row) as [Hp _]. split; intros H.
    - apply (Permutation_in _ Hp), in_seq in H. lia.
    - apply (Permutation_in _ (Permutation_sym Hp)), in_seq. lia.
  Qed.

Lemma argsort_NoDup (row : list Q) : NoDup (argsort row).
  Proof.
    destruct (argsort_ok row) as [Hp _].
    apply (Permutation_NoDup (Permutation_sym Hp)), seq_NoDup.
  Qed.

Lemma argsort_length (row : list Q) : List.length (argsort row) = List.length row.
  Proof.
    destruct (argsort_ok row) as [Hp _].
    rewrite (Permutation_length Hp). apply length_seq.
  Qed.

(** When the vectorizer raises, the handler reports it and the empty frame is
    returned. *)
Lemma find_related_products_vectorizer_raises
        (product_id : string) (df : DataFrame) (n : Z) (e : exn) :
    tfidf_cosine (documents df) = raise e ->
    find_related_products tfidf_cosine argsort product_id df n =
    (ret [], [ErrorFindingRelated e]).
  Proof.
    intros H. unfold find_related_products, find_related_products_try, related_indices.
    rewrite H. reflexivity.
  Qed.

(** An absent id ends in the handler as well. *)
Lemma find_related_products_absent (product_id : string) (df : DataFrame) (n : Z) :
    ~ In product_id (map id df) ->
    exists e,
      find_related_products tfidf_cosine argsort product_id df n =
      (ret [], [ErrorFindingRelated e]).
  Proof.
    intros H. destruct (tfidf_cosine (documents df)) as [e|M] eqn:E.
    - exists e. apply find_related_products_vectorizer_raises, E.
    - exists IndexError.
      unfold find_related_products, find_related_products_try, related_indices.
      rewrite E. cbn [bind]. rewrite (selected_idx_absent _ _ H). reflexivity.
  Qed.

(** The run of the [try] block when the vectorizer returns and the id is
    present: the frame is made of the rows at the positions
    [argsort()[-(n + 1):-1][::-1]] of the selected row of scores. *)
Lemma find_related_products_present
        (product_id : string) (df : DataFrame) (n : Z) (M : list (list Q)) :
    In product_id (map id df) ->
    tfidf_cosine (documents df) = ret M ->
    exists selected_idx row,
      getitem (matching_index product_id df 0) 0 = ret selected_idx /\
      (selected_idx < List.length df)%nat /\
      nth_error M selected_idx = Some row /\
      List.length row = List.length df /\
      let related := rev (slice (- (n + 1)) (-1) (argsort row)) in
      find_related_products tfidf_cosine argsort product_id df n =
        (ret (rows_at df related), []) /\
      map fst (rows_at df related) = related.
  Proof.
    intros Hin HM.
    destruct (selected_idx_present _ _ Hin) as (idx & Hidx & Hlt).
    destruct (cosine_ok _ _ HM) as [HlenM Hrows].
    unfold documents in HlenM, Hrows. rewrite length_map in HlenM, Hrows.
    destruct (nth_error M idx) as [row|] eqn:Hrow.
    2:{ apply nth_error_None in Hrow. lia. }
    assert (Hlen : List.length row = List.length df).
    { rewrite Forall_forall in Hrows. apply Hrows. eapply nth_error_In, Hrow. }
    exists idx, row. repeat (split; [assumption|]). cbv zeta.
    assert (Hrange : Forall (fun i => (i < List.length df)%nat)
                            (rev (slice (- (n + 1)) (-1) (argsort row)))).
    { apply Forall_forall. intros i Hi. apply in_rev, slice_In in Hi.
      apply argsort_range in Hi. lia. }
    destruct (iloc_in_range df _ Hrange) as [Hiloc Hfst].
    split; [|exact Hfst].
    unfold find_related_products, find_related_products_try, related_indices.
    rewrite HM. cbn [bind]. rewrite Hidx. cbn [bind ret]. unfold getitem at 1.
    rewrite Hrow. cbn [bind ret]. rewrite Hiloc. reflexivity.
  Qed.

(** If the score of the selected product is strictly the largest of its row,
    [argsort] puts it last. *)
Lemma strict_max_is_last (row : list Q) (idx : nat) :
    (idx < List.length row)%nat ->
    (forall j, (j < List.length row)%nat -> j <> idx ->
               (score row j < score row idx)%Q) ->
    exists lower_ranked, argsort row = (lower_ranked ++ [idx])%list.
  Proof.
    intros Hidx Hmax.
    destruct (argsort row) as [|i0 rest] eqn:E.
    - pose proof (argsort_length row) as H. rewrite E in H. cbn in H. lia.
    - destruct (@exists_last _ (i0 :: rest)) as (l' & x & Hx); [discriminate|].
      exists l'. rewrite Hx. f_equal. f_equal.
      destruct (Nat.eq_dec x idx) as [|Hne]; [assumption|exfalso].
      assert (Hin : In idx (argsort row)) by (apply argsort_range; exact Hidx).
      assert (Hxin : In x (argsort row)).
      { rewrite E, Hx. apply in_or_app. right. left. reflexivity. }
      rewrite E, Hx in Hin. apply in_app_or in Hin as [Hin|[Hin|[]]]; [|congruence].
      destruct (argsort_ok row) as [_ Hasc]. unfold ascending in Hasc.
      rewrite E, Hx in Hasc. apply StronglySorted_app_inv in Hasc as (_ & _ & H).
      specialize (H idx x Hin (or_introl eq_refl)).
      apply argsort_range in Hxin.
      apply (Qlt_not_le _ _ (Hmax x Hxin Hne)). exact H.
  Qed.

(** With the selected product last, the positions ranked before it are the
    positions of the other products. *)
Lemma lower_ranked_are_others (row : list Q) (idx : nat) (lower_ranked : list nat) :
  argsort row = (lower_ranked ++ [idx])%list ->
  ~ In idx lower_ranked /\
  Permutation (rev lower_ranked)
              (filter (fun i => negb (i =? idx)%nat) (seq 0 (List.length row))).
Proof.
  intros E. pose proof (argsort_NoDup row) as Hnd. rewrite E in Hnd.
  assert (Hnot : ~ In idx lower_ranked).
  { apply NoDup_remove_2 in Hnd. rewrite app_nil_r in Hnd. exact Hnd. }
  split; [exact Hnot|].
  apply NoDup_Permutation.
  - apply NoDup_rev. eapply NoDup_app_remove_r, Hnd.
  - apply NoDup_filter, seq_NoDup.
  - intros i. rewrite <- in_rev, filter_In, in_seq, negb_true_iff, Nat.eqb_neq.
    split.
    + intros Hi. assert (Hin : In i (argsort row)).
      { rewrite E. apply in_or_app. left. exact Hi. }
      apply argsort_range in Hin. split; [lia | congruence].
    + intros [Hi Hne]. assert (Hin : In i (argsort row)) by (apply argsort_range; lia).
      rewrite E in Hin. apply in_app_or in Hin as [Hin|[Hin|[]]]; congruence.
Qed.

(** The selected product is not among its recommendations when its own score
    is strictly the largest of its row. *)
Lemma target_excluded_when_strict_max
      (product_id : string) (df : DataFrame) (n : Z) (M : list (list Q))
      (selected_idx : nat) (row : list Q) (related_products : Frame)
      (log : list st_msg) :
  In product_id (map id df) ->
  tfidf_cosine (documents df) = ret M ->
  getitem (matching_index product_id df 0) 0 = ret selected_idx ->
  nth_error M selected_idx = Some row ->
  (forall j, (j < List.length df)%nat -> j <> selected_idx ->
             (score row j < score row selected_idx)%Q) ->
  find_related_products tfidf_cosine argsort product_id df n = (ret related_products, log) ->
  ~ In selected_idx (map fst related_products).
Proof.
  intros Hin HM Hidx Hrow Hmax Hrun.
  destruct (find_related_products_present product_id df n M Hin HM)
    as (idx' & row' & Hidx' & Hlt & Hrow' & Hlen & Hfind & Hfst).
  rewrite Hidx in Hidx'. injection Hidx' as <-.
  rewrite Hrow in Hrow'. injection Hrow' as <-.
  cbv zeta in Hfind, Hfst. rewrite Hfind in Hrun. injection Hrun as <- _.
  rewrite Hfst. intros H. apply in_rev, slice_excludes_last in H.
  destruct (strict_max_is_last row selected_idx) as (l' & E).
  - lia.
  - rewrite Hlen. exact Hmax.
  - rewrite E, removelast_last in H.
    apply (proj1 (lower_ranked_are_others row selected_idx l' E)), H.
Qed.

(** C2, amended: when the id is present and the vectorizer returns, the
    recommended rows come by non-increasing score against the selected
    product; each is the row of the catalog at its label. Nothing is said of
    the order of rows of equal score. *)
Theorem find_related_products_descending
        (product_id : string) (df : DataFrame) (n : Z) (M : list (list Q)) :
  In product_id (map id df) ->
  tfidf_cosine (documents df) = ret M ->
  exists selected_idx row related_products,
    getitem (matching_index product_id df 0) 0 = ret selected_idx /\
    nth_error M selected_idx = Some row /\
    find_related_products tfidf_cosine argsort product_id df n = (ret related_products, []) /\
    descending row (map fst related_products) /\
    Forall (fun p => nth_error df (fst p) = Some (snd p)) related_products.
Proof.
  intros Hin HM.
  destruct (find_related_products_present product_id df n M Hin HM)
    as (idx & row & Hidx & Hlt & Hrow & Hlen & Hfind & Hfst).
  cbv zeta in Hfind, Hfst.
  exists idx, row, (rows_at df (rev (slice (- (n + 1)) (-1) (argsort row)))).
  repeat (split; [assumption|]). split.
  - rewrite Hfst. unfold descending.
    apply (StronglySorted_rev (fun i j => score row i <= score row j)%Q).
    apply slice_sorted. apply argsort_ok.
  - apply Forall_forall. intros p Hp. apply rows_at_lookup in Hp. tauto.
Qed.

(** C7, amended: for a present id and a number of recommendations that is not
    negative, the call returns at most that many rows; when the vectorizer
    returns it reports nothing and returns exactly the smaller of that number
    and the number of other rows; and when moreover that number is at least
    the number of other rows and the score of the selected product is strictly
    the largest of its row, the rows returned are all the other rows. *)
Theorem find_related_products_count
        (product_id : string) (df : DataFrame) (n : Z) :
  In product_id (map id df) ->
  (0 <= n)%Z ->
  exists related_products log,
    find_related_products tfidf_cosine argsort product_id df n = (ret related_products, log) /\
    (List.length related_products <= Z.to_nat n)%nat /\
    (forall M, tfidf_cosine (documents df) = ret M ->
               log = [] /\
               List.length related_products = Nat.min (Z.to_nat n) (List.length df - 1)) /\
    (forall M selected_idx row,
        tfidf_cosine (documents df) = ret M ->
        getitem (matching_index product_id df 0) 0 = ret selected_idx ->
        nth_error M selected_idx = Some row ->
        (forall j, (j < List.length df)%nat -> j <> selected_idx ->
                   (score row j < score row selected_idx)%Q) ->
        (List.length df - 1 <= Z.to_nat n)%nat ->
        Permutation related_products (others selected_idx df)).
Proof.
  intros Hin Hn. destruct (tfidf_cosine (documents df)) as [e|M] eqn:E.
  - exists [], [ErrorFindingRelated e].
    split; [apply find_related_products_vectorizer_raises, E|].
    split; [cbn; lia|]. split; intros; discriminate.
  - destruct (find_related_products_present product_id df n M Hin E)
      as (idx & row & Hidx & Hlt & Hrow & Hlen & Hfind & Hfst).
    cbv zeta in Hfind, Hfst.
    set (related := rev (slice (- (n + 1)) (-1) (argsort row))) in *.
    exists (rows_at df related), []. split; [exact Hfind|].
    assert (Hcount : List.length (rows_at df related)
                     = Nat.min (Z.to_nat n) (List.length df - 1)).
    { rewrite <- (length_map fst), Hfst. unfold related.
      rewrite length_rev, (slice_recommendations n _ Hn), length_skipn.
      rewrite removelast_firstn_len, length_firstn, argsort_length, Hlen. lia. }
    split; [lia|]. split; [intros _ _; split; [reflexivity | exact Hcount]|].
    intros M' idx' row' HM' Hidx' Hrow' Hmax Hall.
    injection HM' as <-. rewrite Hidx in Hidx'. injection Hidx' as <-.
    rewrite Hrow in Hrow'. injection Hrow' as <-.
    destruct (strict_max_is_last row idx) as (l' & El); [lia | rewrite Hlen; exact Hmax|].
    destruct (lower_ranked_are_others row idx l' El) as [_ Hperm].
    assert (Hrel : related = rev l').
    { unfold related. rewrite (slice_recommendations n _ Hn), El, removelast_last.
      rewrite <- El, argsort_length, Hlen.
      replace (List.length df - 1 - Z.to_nat n)%nat with 0%nat by lia. reflexivity. }
    rewrite Hrel. unfold others, rows_at. rewrite <- Hlen.
    apply Permutation_flat_map. exact Hperm.
Qed.

(** C3, amended: the call never raises. For an id that is not in the catalog it
    reports an error through [st.error] and returns the empty frame; this
    outcome is that of an absent id or of a vectorizer that raised, and of no
    other call. *)
Theorem find_related_products_unknown_id
        (product_id : string) (df : DataFrame) (n : Z) :
  (exists related_products log,
      find_related_products tfidf_cosine argsort product_id df n
      = (ret related_products, log)) /\
  (~ In product_id (map id df) ->
   exists e, find_related_products tfidf_cosine argsort product_id df n
             = (ret [], [ErrorFindingRelated e])) /\
  ((exists e, find_related_products tfidf_cosine argsort product_id df n
              = (ret [], [ErrorFindingRelated e])) <->
   (~ In product_id (map id df) \/ exists e, tfidf_cosine (documents df) = raise e)).
Proof.
  split; [|split].
  - unfold find_related_products, try_except, lift.
    destruct (find_related_products_try _ _ _ _ _) as [e|fr];
      eexists _, _; reflexivity.
  - apply find_related_products_absent.
  - split.
    + intros [e He].
      destruct (in_dec string_dec product_id (map id df)) as [Hin|Hout]; [|tauto].
      destruct (tfidf_cosine (documents df)) as [e'|M] eqn:E; [right; eauto|].
      destruct (find_related_products_present product_id df n M Hin E)
        as (idx & row & _ & _ & _ & _ & Hfind & _).
      cbv zeta in Hfind. rewrite Hfind in He. discriminate.
    + intros [Hout|[e He]].
      * apply find_related_products_absent, Hout.
      * exists e. apply find_related_products_vectorizer_raises, He.
Qed.

End RecommenderFacts.

(** ** The recommender on the example catalogs *)

(** On the catalog with a duplicated description, the first of the two equal
    products is recommended to itself and its duplicate is left out. *)
Lemma find_related_products_dup :
  find_related_products exact_match_cosine argsort_insertion "A" catalog_dup 1
  = (ret [(0%nat, mkRow "A" (Str "red shoe"))], []) /\
  find_related_products exact_match_cosine argsort_insertion "A" catalog_dup 5
  = (ret [(0%nat, mkRow "A" (Str "red shoe")); (2%nat, mkRow "C" (Str "blue hat"))], []).
Proof. split; vm_compute; reflexivity. Qed.

(** C1: whatever order [argsort] gives to equal scores, one of two products
    with the same description is recommended to itself: both rows of scores
    are the same, so the same position is dropped for both. *)
Theorem find_related_products_recommends_target (argsort : list Q -> list nat) :
  argsort_contract argsort ->
  find_related_products exact_match_cosine argsort "A" catalog_twins 1
  = (ret [(0%nat, mkRow "A" (Str "red shoe"))], []) \/
  find_related_products exact_match_cosine argsort "B" catalog_twins 1
  = (ret [(1%nat, mkRow "B" (Str "red shoe"))], []).
Proof.
  intros Hsort.
  assert (HM : exact_match_cosine (documents catalog_twins)
               = ret [[1%Q; 1%Q]; [1%Q; 1%Q]]) by reflexivity.
  assert (HA : In "A" (map id catalog_twins)) by (left; reflexivity).
  assert (HB : In "B" (map id catalog_twins)) by (right; left; reflexivity).
  destruct (find_related_products_present exact_match_cosine argsort
              exact_match_cosine_contract Hsort "A" catalog_twins 1 _ HA HM)
    as (ia & rowa & Hia & _ & Hrowa & _ & Hfa & _).
  destruct (find_related_products_present exact_match_cosine argsort
              exact_match_cosine_contract Hsort "B" catalog_twins 1 _ HB HM)
    as (ib & rowb & Hib & _ & Hrowb & _ & Hfb & _).
  injection Hia as <-. injection Hib as <-.
  injection Hrowa as <-. injection Hrowb as <-.
  cbv zeta in Hfa, Hfb. rewrite Hfa, Hfb.
  destruct (Hsort [1%Q; 1%Q]) as [Hperm _].
  apply Permutation_sym, Permutation_length_2_inv in Hperm.
  destruct Hperm as [-> | ->]; [left | right]; reflexivity.
Qed.

Lemma find_related_products_recommends_target_witness :
  find_related_products exact_match_cosine argsort_insertion "A" catalog_twins 1
  = (ret [(0%nat, mkRow "A" (Str "red shoe"))], []) \/
  find_related_products exact_match_cosine argsort_insertion "B" catalog_twins 1
  = (ret [(1%nat, mkRow "B" (Str "red shoe"))], []).
Proof.
  apply (find_related_products_recommends_target argsort_insertion).
  exact argsort_insertion_contract.
Defined.

(** C2, as stated, fails: for product A of three products without a common
    term, B and C have the same score and C is listed before B. *)
Lemma ties_reverse_catalog_order :
  exact_match_cosine (documents catalog_distinct)
  = ret [[1%Q; 0%Q; 0%Q]; [0%Q; 1%Q; 0%Q]; [0%Q; 0%Q; 1%Q]] /\
  find_related_products exact_match_cosine argsort_insertion "A" catalog_distinct 3
  = (ret [(2%nat, mkRow "C" (Str "green sock")); (1%nat, mkRow "B" (Str "blue hat"))], []) /\
  ~ ties_in_catalog_order [1%Q; 0%Q; 0%Q] [2%nat; 1%nat].
Proof.
  split; [reflexivity|]. split; [vm_compute; reflexivity|].
  unfold ties_in_catalog_order. intros H.
  apply StronglySorted_inv in H as [_ H]. apply Forall_inv in H.
  assert (Hlt : (2 < 1)%nat) by (apply H; reflexivity). lia.
Qed.

Lemma find_related_products_descending_witness :
  exists selected_idx row related_products,
    getitem (matching_index "A" catalog_distinct 0) 0 = ret selected_idx /\
    nth_error [[1%Q; 0%Q; 0%Q]; [0%Q; 1%Q; 0%Q]; [0%Q; 0%Q; 1%Q]] selected_idx
    = Some row /\
    find_related_products exact_match_cosine argsort_insertion "A" catalog_distinct 3
    = (ret related_products, []) /\
    descending row (map fst related_products) /\
    Forall (fun p => nth_error catalog_distinct (fst p) = Some (snd p)) related_products.
Proof.
  apply (find_related_products_descending exact_match_cosine argsort_insertion
           exact_match_cosine_contract argsort_insertion_contract
           "A" catalog_distinct 3).
  - left. reflexivity.
  - reflexivity.
Defined.

(** C3, as stated, fails: an unknown id does not make the call raise, it
    returns the empty frame; and the same report and the same empty frame are
    the outcome for an id of the catalog when the vectorizer raises. *)
Lemma find_related_products_fails_on_present_id :
  find_related_products exact_match_cosine argsort_insertion "Z" catalog_distinct 3
  = (ret [], [ErrorFindingRelated IndexError]) /\
  (forall e, fst (find_related_products exact_match_cosine argsort_insertion
                    "Z" catalog_distinct 3) <> raise e) /\
  In "B" (map id catalog_missing) /\
  find_related_products exact_match_cosine argsort_insertion "B" catalog_missing 3
  = (ret [], [ErrorFindingRelated ValueError]).
Proof.
  split; [vm_compute; reflexivity|]. split; [intros e; vm_compute; discriminate|].
  split; [right; left; reflexivity | vm_compute; reflexivity].
Qed.

Lemma find_related_products_unknown_id_witness :
  ~ In "Z" (map id catalog_distinct) /\
  exists e, find_related_products exact_match_cosine argsort_insertion
              "Z" catalog_distinct 3
            = (ret [], [ErrorFindingRelated e]).
Proof.
  assert (Hout : ~ In "Z" (map id catalog_distinct)).
  { cbn. intros [H|[H|[H|[]]]]; discriminate. }
  split; [exact Hout|].
  destruct (find_related_products_unknown_id exact_match_cosine argsort_insertion
              exact_match_cosine_contract argsort_insertion_contract
              "Z" catalog_distinct 3)
    as (_ & Habsent & _).
  exact (Habsent Hout).
Defined.

(** C7, as stated, fails: with two products whose description is missing the
    vectorizer raises, and the call for three recommendations returns no row
    although there is one other product; and a negative number of
    recommendations, which Python reads as a slice bound, returns more rows
    than that number. *)
Lemma no_recommendation_when_vectorizer_raises :
  In "A" (map id catalog_missing) /\
  find_related_products exact_match_cosine argsort_insertion "A" catalog_missing 3
  = (ret [], [ErrorFindingRelated ValueError]) /\
  others 0 catalog_missing = [(1%nat, mkRow "B" NaN)] /\
  Nat.min 3 (List.length catalog_missing - 1) = 1%nat /\
  find_related_products exact_match_cosine argsort_insertion "A" catalog_distinct (-1)
  = (ret [(2%nat, mkRow "C" (Str "green sock")); (1%nat, mkRow "B" (Str "blue hat"))], []).
Proof.
  split; [left; reflexivity|]. repeat split; vm_compute; reflexivity.
Qed.

Lemma find_related_products_count_witness :
  exists related_products log,
    find_related_products exact_match_cosine argsort_insertion "A" catalog_distinct 5
    = (ret related_products, log) /\
    (List.length related_products <= Z.to_nat 5)%nat /\
    log = [] /\
    List.length related_products = 2%nat /\
    Permutation related_products (others 0 catalog_distinct).
Proof.
  destruct (find_related_products_count exact_match_cosine argsort_insertion
              exact_match_cosine_contract argsort_insertion_contract
              "A" catalog_distinct 5)
    as (fr & log & Hrun & Hle & Hcount & Hall).
  - left. reflexivity.
  - lia.
  - exists fr, log. split; [exact Hrun|]. split; [exact Hle|].
    destruct (Hcount [[1%Q; 0%Q; 0%Q]; [0%Q; 1%Q; 0%Q]; [0%Q; 0%Q; 1%Q]] eq_refl)
      as [Hlog Hlen].
    split; [exact Hlog|]. split; [exact Hlen|].
    apply (Hall [[1%Q; 0%Q; 0%Q]; [0%Q; 1%Q; 0%Q]; [0%Q; 0%Q; 1%Q]] 0%nat
                [1%Q; 0%Q; 0%Q]); try reflexivity.
    + intros j Hj Hne. cbn in Hj.
      destruct j as [|[|[|j]]]; [congruence | reflexivity | reflexivity | lia].
    + cbn. lia.
Defined.

(* ================================================================== *)
(** * Part III: further properties of the script                        *)
(* ================================================================== *)

(** ** The cleaner *)

Lemma length_append (s1 s2 : string) :
  String.length (s1 ++ s2) = (String.length s1 + String.length s2)%nat.
Proof. induction s1 as [|c s1 IH]; cbn; [reflexivity | rewrite IH; reflexivity]. Qed.

Lemma replace_from_length (old new : string) (skip : nat) (s : string) :
  (String.length new <= String.length old)%nat ->
  (String.length (replace_from old new skip s) <= String.length s - skip)%nat.
Proof.
  intros Hlen. revert skip. induction s as [|c s IH]; intros skip.
  - cbn. lia.
  - destruct skip as [|k]; cbn [replace_from].
    + destruct (prefix old (String c s)) eqn:Hp.
      * apply prefix_length in Hp. cbn [String.length] in *.
        rewrite length_append. specialize (IH (String.length old - 1)%nat). lia.
      * cbn [String.length]. specialize (IH 0%nat). lia.
    + cbn [String.length]. specialize (IH k). lia.
Qed.

Lemma str_replace_length (old new s : string) :
  old <> "" ->
  (String.length new <= String.length old)%nat ->
  (String.length (str_replace old new s) <= String.length s)%nat.
Proof.
  intros Hold Hlen. destruct old as [|a old]; [congruence|]. unfold str_replace.
  pose proof (replace_from_length (String a old) new 0 s Hlen). lia.
Qed.

(** The cleaner never makes a description longer: each marker is at least as
    long as what replaces it. *)
Theorem clean_text_never_longer (x : string) :
  (String.length (clean_text x) <= String.length x)%nat.
Proof.
  unfold clean_text.
  repeat (etransitivity; [apply str_replace_length; [discriminate | cbn; lia]|]).
  reflexivity.
Qed.

Lemma prefix_app (p s : string) : prefix p (p ++ s) = true.
Proof.
  induction p as [|a p IH]; cbn; [destruct s; reflexivity|].
  destruct (ascii_dec a a); [exact IH | congruence].
Qed.

Lemma substring_after_prefix (p s : string) :
  substring (String.length p) (String.length (p ++ s) - String.length p) (p ++ s) = s.
Proof.
  induction p as [|a p IH].
  - cbn [String.length append]. rewrite Nat.sub_0_r. apply substring_all.
  - cbn [String.length append substring Nat.sub]. exact IH.
Qed.

(** At an occurrence of [old], [new] is emitted and the scan resumes after it. *)
Lemma str_replace_at_old (old new b : string) :
  old <> "" ->
  str_replace old new (old ++ b) = new ++ str_replace old new b.
Proof.
  intros Hold. rewrite (str_replace_match old new (old ++ b) Hold (prefix_app old b)).
  rewrite substring_after_prefix. reflexivity.
Qed.

(** Text without a bracket is copied when [old] starts with a bracket. *)
Lemma str_replace_over_plain (old_rest new s b : string) :
  plain s = true ->
  str_replace (String "<" old_rest) new (s ++ b)
  = s ++ str_replace (String "<" old_rest) new b.
Proof.
  unfold plain. induction s as [|c s IH]; intros H; [reflexivity|].
  cbn [mem_char] in H. apply negb_true_iff, orb_false_iff in H as [Hc Hs].
  cbn [append]. rewrite str_replace_skip.
  - rewrite IH; [reflexivity | apply negb_true_iff; exact Hs].
  - discriminate.
  - cbn [prefix]. destruct (ascii_dec "<" c) as [E|E]; [|reflexivity].
    subst c. rewrite Ascii.eqb_refl in Hc. discriminate.
Qed.

(** One [str.replace] on a sequence of pieces replaces the pieces that are the
    marker [old] and leaves the others, provided no other tag can be taken for
    [old]. *)
Lemma str_replace_pieces (old_rest new : string) (tags : list string)
      (pieces : list piece) :
  (forall m, In m tags ->
             m = String "<" old_rest \/
             exists rest, m = String "<" rest /\ plain rest = true /\
                          forall b, prefix (String "<" old_rest) (m ++ b) = false) ->
  Forall (piece_over tags) pieces ->
  str_replace (String "<" old_rest) new (render pieces)
  = render (map (subst_piece (String "<" old_rest) new) pieces).
Proof.
  intros Htags. induction 1 as [|p pieces Hp _ IH]; [reflexivity|].
  cbn [render map]. destruct p as [s|m]; cbn [piece_over piece_text subst_piece] in *.
  - rewrite (str_replace_over_plain _ _ _ _ Hp), IH. reflexivity.
  - destruct (Htags m Hp) as [->|(rest & -> & Hrest & Hno)].
    + rewrite String.eqb_refl. cbn [piece_text].
      rewrite str_replace_at_old by discriminate. rewrite IH. reflexivity.
    + destruct (String.eqb_spec (String "<" rest) (String "<" old_rest)) as [E|E].
      * exfalso. specialize (Hno ""). rewrite E, prefix_app in Hno. discriminate.
      * cbn [piece_text append]. rewrite str_replace_skip.
        -- rewrite (str_replace_over_plain _ _ _ _ Hrest), IH. reflexivity.
        -- discriminate.
        -- apply (Hno (render pieces)).
Qed.

Lemma subst_piece_over (old new : string) (tags : list string) (pieces : list piece) :
  plain new = true ->
  Forall (piece_over (old :: tags)) pieces ->
  Forall (piece_over tags) (map (subst_piece old new) pieces).
Proof.
  intros Hnew. induction 1 as [|p pieces Hp _ IH]; cbn [map]; constructor; [|exact IH].
  destruct p as [s|m]; cbn [subst_piece piece_over] in *; [exact Hp|].
  destruct (String.eqb_spec m old) as [E|E]; cbn [piece_over]; [exact Hnew|].
  destruct Hp as [Hp|Hp]; [congruence | exact Hp].
Qed.

Lemma well_formed_over (p : piece) : well_formed p = true -> piece_over markers p.
Proof.
  destruct p as [s|m]; cbn [well_formed piece_over]; [tauto|].
  intros H. apply existsb_exists in H as (m' & Hin & E).
  apply String.eqb_eq in E. subst m'. exact Hin.
Qed.

(** Each tag of the list is the marker being replaced, or differs from it
    before either ends and has no bracket after its first character. *)
Ltac other_tags :=
  let m := fresh "m" in
  let H := fresh "H" in
  intros m H; cbn [In] in H;
  repeat (destruct H as [<-|H];
          [first [left; reflexivity
                 |right; eexists; split; [reflexivity|]; split; [reflexivity|];
                  intros ?; reflexivity]|]);
  destruct H.

(** The cleaner on pieces over the five markers. *)
Lemma clean_text_render (pieces : list piece) :
  Forall (piece_over markers) pieces ->
  clean_text (render pieces) = render (map clean_piece pieces).
Proof.
  intros H0.
  unfold markers in H0. unfold clean_text.
  rewrite (fun Ht => str_replace_pieces _ _ _ _ Ht H0); [|other_tags].
  pose proof (subst_piece_over _ (nl ++ nl) _ _ eq_refl H0) as H1.
  rewrite (fun Ht => str_replace_pieces _ _ _ _ Ht H1); [|other_tags].
  pose proof (subst_piece_over _ "" _ _ eq_refl H1) as H2.
  rewrite (fun Ht => str_replace_pieces _ _ _ _ Ht H2); [|other_tags].
  pose proof (subst_piece_over _ "" _ _ eq_refl H2) as H3.
  rewrite (fun Ht => str_replace_pieces _ _ _ _ Ht H3); [|other_tags].
  pose proof (subst_piece_over _ "- " _ _ eq_refl H3) as H4.
  rewrite (fun Ht => str_replace_pieces _ _ _ _ Ht H4); [|other_tags].
  rewrite !map_map. f_equal. apply map_ext_in. intros p Hp.
  rewrite Forall_forall in H0. specialize (H0 p Hp).
  destruct p as [s|m]; [reflexivity|].
  cbn [piece_over] in H0.
  destruct H0 as [<-|[<-|[<-|[<-|[<-|[]]]]]]; reflexivity.
Qed.

(** On a description made of text without brackets and of the five markers,
    the cleaner replaces every marker by its replacement and leaves the text as
    it is. *)
Theorem clean_text_pieces (pieces : list piece) :
  forallb well_formed pieces = true ->
  clean_text (render pieces) = render (map clean_piece pieces).
Proof.
  intros Hwf. apply clean_text_render.
  apply Forall_forall. intros p Hp. apply well_formed_over.
  rewrite forallb_forall in Hwf. apply Hwf, Hp.
Qed.

Lemma clean_text_pieces_witness :
  clean_text (render [Tag "<ul>"; Tag "<li>"; Plain "red"; Tag "</li>";
                      Tag "<li>"; Plain "shoe"; Tag "</li>"; Tag "</ul>";
                      Tag "<br><br>"; Plain "new"])
  = render [Plain ""; Plain "- "; Plain "red"; Plain nl;
            Plain "- "; Plain "shoe"; Plain nl; Plain "";
            Plain (nl ++ nl); Plain "new"].
Proof.
  apply (clean_text_pieces [Tag "<ul>"; Tag "<li>"; Plain "red"; Tag "</li>";
                            Tag "<li>"; Plain "shoe"; Tag "</li>"; Tag "</ul>";
                            Tag "<br><br>"; Plain "new"]).
  reflexivity.
Defined.

(** ** The select box and the selected product *)

Lemma unique_In (v : string) (values : list string) :
  In v (unique values) <-> In v values.
Proof.
  induction values as [|w values IH]; cbn [unique In]; [tauto|].
  rewrite filter_In, IH, negb_true_iff, String.eqb_neq.
  destruct (string_dec w v) as [E|E]; [tauto|].
  split; [tauto|]. intros [H|H]; [tauto|]. right. split; congruence.
Qed.

Lemma unique_NoDup (values : list string) : NoDup (unique values).
Proof.
  induction values as [|w values IH]; cbn [unique]; constructor.
  - rewrite filter_In, negb_true_iff, String.eqb_neq. tauto.
  - apply NoDup_filter, IH.
Qed.

(** The first label of [df[df['id'] == product_id]] is the position of the
    first row with that id, and that row is [iloc[0]] of the same selection. *)
Lemma matching_index_first (product_id : string) (df : DataFrame) (pos i : nat)
      (rest : list nat) :
  matching_index product_id df pos = i :: rest ->
  (pos <= i)%nat /\
  selected_product product_id df = getitem df (i - pos) /\
  (exists row, nth_error df (i - pos) = Some row /\ id row = product_id) /\
  (forall j r, (j < i - pos)%nat -> nth_error df j = Some r -> id r <> product_id).
Proof.
  unfold selected_product. revert pos.
  induction df as [|r df IH]; intros pos; cbn [matching_index filter]; [discriminate|].
  destruct (String.eqb_spec (id r) product_id) as [E|E].
  - intros [= <- _]. rewrite Nat.sub_diag. split; [lia|]. split; [reflexivity|].
    split; [exists r; split; [reflexivity | exact E] | intros j r' Hj; lia].
  - intros H. destruct (IH (S pos) H) as (Hle & Hsel & Hrow & Hfirst).
    replace (i - pos)%nat with (S (i - S pos)) by lia.
    split; [lia|]. split; [exact Hsel|]. split; [exact Hrow|].
    intros [|j] r' Hj Hr'; cbn [nth_error] in Hr'.
    + injection Hr' as <-. exact E.
    + apply (Hfirst j r'); [lia | exact Hr'].
Qed.

(** The options of the select box are the ids of the catalog, each offered
    once; whichever option is chosen, line 140 finds a row, and that row has
    the chosen id. *)
Theorem selectbox_options (df : DataFrame) :
  NoDup (unique (map id df)) /\
  (forall product_id, In product_id (unique (map id df)) <-> In product_id (map id df)) /\
  (forall product_id,
      In product_id (unique (map id df)) ->
      exists row, selected_product product_id df = ret row /\
                  id row = product_id /\ In row df).
Proof.
  split; [apply unique_NoDup|]. split; [intros; apply unique_In|].
  intros product_id Hin. apply (proj1 (unique_In _ _)) in Hin.
  destruct (matching_index product_id df 0) as [|i rest] eqn:E.
  - apply matching_index_nil in E. contradiction.
  - destruct (matching_index_first _ _ _ _ _ E) as (_ & Hsel & (row & Hrow & Hid) & _).
    exists row. rewrite Hsel. unfold getitem. rewrite Hrow.
    split; [reflexivity|]. split; [exact Hid | eapply nth_error_In, Hrow].
Qed.

Lemma selectbox_options_witness :
  exists row, selected_product "B" catalog_dup = ret row /\
              id row = "B" /\ In row catalog_dup.
Proof.
  apply (selectbox_options catalog_dup). cbn. tauto.
Defined.

(** The row of scores read by the recommender is that of the product shown as
    selected: the position found at line 186 holds the row found at line 140,
    which is the first row of the catalog with the chosen id. *)
Theorem selected_idx_is_selected_product (product_id : string) (df : DataFrame) :
  In product_id (map id df) ->
  exists selected_idx row,
    getitem (matching_index product_id df 0) 0 = ret selected_idx /\
    nth_error df selected_idx = Some row /\
    selected_product product_id df = ret row /\
    id row = product_id /\
    (forall j r, (j < selected_idx)%nat -> nth_error df j = Some r ->
                 id r <> product_id).
Proof.
  intros Hin. destruct (matching_index product_id df 0) as [|i rest] eqn:E.
  - apply matching_index_nil in E. contradiction.
  - destruct (matching_index_first _ _ _ _ _ E) as (_ & Hsel & (row & Hrow & Hid) & Hfirst).
    rewrite Nat.sub_0_r in *. exists i, row.
    split; [reflexivity|]. split; [exact Hrow|].
    split; [rewrite Hsel; unfold getitem; rewrite Hrow; reflexivity|].
    split; [exact Hid | exact Hfirst].
Qed.

Lemma selected_idx_is_selected_product_witness :
  exists selected_idx row,
    getitem (matching_index "C" catalog_dup 0) 0 = ret selected_idx /\
    nth_error catalog_dup selected_idx = Some row /\
    selected_product "C" catalog_dup = ret row /\
    id row = "C" /\
    (forall j r, (j < selected_idx)%nat -> nth_error catalog_dup j = Some r ->
                 id r <> "C").
Proof.
  apply (selected_idx_is_selected_product "C" catalog_dup). cbn. tauto.
Defined.

(** ** The search and what the sidebar lists *)

(** Searching two catalogs put end to end lists the matches of the first, then
    those of the second. *)
Theorem search_app (re_compile : string -> result (string -> bool))
        (df1 df2 : DataFrame) (search_query : string) :
  search re_compile (df1 ++ df2)%list search_query =
  (r1 <- search re_compile df1 search_query ;;
   r2 <- search re_compile df2 search_query ;;
   ret (r1 ++ r2)%list).
Proof.
  destruct search_query as [|c q]; [reflexivity|].
  rewrite !search_unfold. unfold bind.
  destruct (re_compile (String c q)) as [e|regex]; [reflexivity|].
  unfold ret. rewrite filter_app. reflexivity.
Qed.

Lemma to_lower_not_special (c : ascii) :
  mem_char (to_lower c) special_chars = mem_char c special_chars.
Proof.
  destruct c as [[] [] [] [] [] [] [] []]; reflexivity.
Qed.

Lemma no_special_lower (pat : string) : no_special (lower pat) = no_special pat.
Proof.
  induction pat as [|c pat IH]; [reflexivity|].
  cbn [lower no_special]. rewrite to_lower_not_special, IH. reflexivity.
Qed.

Lemma to_lower_idempotent (c : ascii) : to_lower (to_lower c) = to_lower c.
Proof.
  destruct c as [[] [] [] [] [] [] [] []]; reflexivity.
Qed.

Lemma lower_idempotent (s : string) : lower (lower s) = lower s.
Proof.
  induction s as [|c s IH]; [reflexivity|].
  cbn [lower]. rewrite to_lower_idempotent, IH. reflexivity.
Qed.

Lemma to_lower_ascii (c : ascii) : is_ascii_char (to_lower c) = is_ascii_char c.
Proof.
  destruct c as [[] [] [] [] [] [] [] []]; reflexivity.
Qed.

Lemma is_ascii_lower (s : string) : is_ascii (lower s) = is_ascii s.
Proof.
  induction s as [|c s IH]; [reflexivity|].
  cbn [lower is_ascii]. rewrite to_lower_ascii, IH. reflexivity.
Qed.

(** On a catalog of ASCII descriptions, the case of the letters of an ASCII
    query without operators does not matter: the query and its lower-case form
    list the same products. *)
Theorem search_query_case (re_compile : string -> result (string -> bool))
        (df : DataFrame) (search_query : string) :
  re_literal_contract re_compile ->
  no_special search_query = true ->
  is_ascii search_query = true ->
  forallb ascii_description df = true ->
  search re_compile df (lower search_query) = search re_compile df search_query.
Proof.
  intros Hre Hq Hascii Hdf. destruct search_query as [|c q]; [reflexivity|].
  assert (Hq' : no_special (lower (String c q)) = true)
    by (rewrite no_special_lower; exact Hq).
  assert (Hascii' : is_ascii (lower (String c q)) = true)
    by (rewrite is_ascii_lower; exact Hascii).
  destruct (Hre _ Hq Hascii) as (regex & Hc & Hregex).
  destruct (Hre _ Hq' Hascii') as (regex' & Hc' & Hregex').
  cbn [lower] in *. rewrite !search_unfold, Hc, Hc'.
  unfold bind, ret. apply f_equal. apply filter_ext_in. intros r Hr.
  rewrite forallb_forall in Hdf. specialize (Hdf r Hr). unfold ascii_description in Hdf.
  destruct (description r) as [s|]; [|reflexivity]. cbn [fillna] in Hdf.
  rewrite (Hregex s Hdf), (Hregex' s Hdf). unfold contains_ci.
  change (String (to_lower c) (lower q)) with (lower (String c q)).
  rewrite lower_idempotent. reflexivity.
Qed.

Lemma search_query_case_witness :
  search re_literal_dot catalog_spec "red" = search re_literal_dot catalog_spec "RED".
Proof.
  apply (search_query_case re_literal_dot catalog_spec "RED").
  - exact re_literal_dot_contract.
  - reflexivity.
  - reflexivity.
  - reflexivity.
Defined.

Lemma for_each_show_match (str_take : nat -> string -> string) (rows : DataFrame) :
  Forall (fun r => has_description r = true) rows ->
  for_each (show_match str_take) rows
  = (map (fun r => SidebarMatch (id r) (str_take 50%nat (fillna (description r) ""))) rows,
     None).
Proof.
  induction 1 as [|r rows Hr _ IH]; [reflexivity|].
  cbn [for_each map]. rewrite IH. unfold show_match, excerpt, has_description in *.
  destruct (description r); [reflexivity | discriminate].
Qed.

(** When the pattern compiles, the sidebar never fails: it shows the number of
    matches followed by one line per match in catalog order, with the id and
    the slice [[:50]] of the description, or the no-match message; the rows
    without description are not among the matches, so the slice of line 225 is
    always taken on a string. When the pattern does not compile, nothing is
    shown and the exception ends the run. *)
Theorem sidebar_search_shown (re_compile : string -> result (string -> bool))
        (str_take : nat -> string -> string)
        (df : DataFrame) (c : ascii) (q : string) :
  (forall regex,
      re_compile (String c q) = ret regex ->
      let found := filter (fun r => match description r with
                                    | Str s => regex s
                                    | NaN => false
                                    end) df in
      sidebar_search re_compile str_take df (String c q)
      = (match found with
         | [] => [SidebarNoMatch]
         | _ :: _ =>
             SidebarFound (List.length found)
             :: map (fun r => SidebarMatch (id r)
                                (str_take 50%nat (fillna (description r) ""))) found
         end, None)) /\
  (forall e, re_compile (String c q) = raise e ->
             sidebar_search re_compile str_take df (String c q) = ([], Some e)).
Proof.
  unfold sidebar_search. rewrite search_unfold. split.
  - intros regex ->. cbv zeta. unfold bind, ret.
    set (found := filter _ df).
    assert (Hdesc : Forall (fun r => has_description r = true) found).
    { apply Forall_forall. intros r Hr. apply filter_In in Hr as [_ Hr].
      unfold has_description. destruct (description r); congruence. }
    destruct found as [|r found]; [reflexivity|].
    cbn [empty negb]. rewrite (for_each_show_match _ _ Hdesc). reflexivity.
  - intros e ->. reflexivity.
Qed.

(** On ASCII text [s[:n]] is [substring 0 n s]. *)
Lemma sidebar_search_shown_witness :
  sidebar_search re_literal_dot (substring 0) catalog_spec "RED"
  = ([SidebarFound 2;
      SidebarMatch "A" "<ul><li>red</li><li>shoe</li></ul>";
      SidebarMatch "B" "<ul><li>red</li><li>shirt</li></ul>"], None).
Proof.
  destruct (sidebar_search_shown re_literal_dot (substring 0) catalog_spec "R" "ED")
    as [H _].
  rewrite (H _ eq_refl). reflexivity.
Defined.

(** ** The list of recommendations on the page *)

Lemma for_each_app {A} (body : A -> Page) (l1 l2 : list A) :
  for_each body (l1 ++ l2)%list = page_seq (for_each body l1) (for_each body l2).
Proof.
  induction l1 as [|x l1 IH]; cbn [app for_each].
  - unfold page_seq. destruct (for_each body l2). reflexivity.
  - rewrite IH. unfold page_seq.
    destruct (body x) as [ws [e|]]; [reflexivity|].
    destruct (for_each body l1) as [ws1 [e1|]]; [reflexivity|].
    destruct (for_each body l2) as [ws2 r2]. rewrite app_assoc. reflexivity.
Qed.

Lemma for_each_described (rows : Frame) :
  Forall (fun labelled => has_description (snd labelled) = true) rows ->
  for_each (fun labelled => show_recommendation (snd labelled)) rows
  = (flat_map (fun labelled =>
                 [RecommendedHeader (id (snd labelled));
                  DescriptionExpander (clean_text (fillna (description (snd labelled)) ""));
                  Separator]) rows,
     None).
Proof.
  induction 1 as [|[i r] rows Hr _ IH]; [reflexivity|].
  cbn [for_each flat_map snd] in *. rewrite IH.
  unfold show_recommendation, has_description in *.
  destruct (description r); [reflexivity | discriminate].
Qed.

(** With no recommended row the page shows the no-recommendation message;
    with recommended rows that all have a description it shows, for each row
    in order, its header, its cleaned description and a separator, and the
    loop does not fail. *)
Theorem show_recommendations_described (related_products : Frame) :
  show_recommendations [] = ([NoRecommendations], None) /\
  (related_products <> [] ->
   Forall (fun labelled => has_description (snd labelled) = true) related_products ->
   show_recommendations related_products
   = (flat_map (fun labelled =>
                  [RecommendedHeader (id (snd labelled));
                   DescriptionExpander
                     (clean_text (fillna (description (snd labelled)) ""));
                   Separator]) related_products,
      None)).
Proof.
  split; [reflexivity|]. intros Hne Hdesc. unfold show_recommendations.
  destruct related_products as [|p rows]; [congruence|].
  cbn [empty negb]. apply for_each_described, Hdesc.
Qed.

Lemma show_recommendations_described_witness :
  show_recommendations [(2%nat, mkRow "C" (Str "<li>blue</li>"))]
  = ([RecommendedHeader "C"; DescriptionExpander ("- blue" ++ nl); Separator], None).
Proof.
  apply (show_recommendations_described [(2%nat, mkRow "C" (Str "<li>blue</li>"))]).
  - discriminate.
  - repeat constructor.
Defined.

(** A recommended row without description ends the loop with
    [AttributeError]: the rows before it are shown in full, its own header is
    shown, and nothing of the rows after it. *)
Theorem show_recommendations_missing
        (before after : Frame) (label : nat) (row : Row) :
  Forall (fun labelled => has_description (snd labelled) = true) before ->
  description row = NaN ->
  show_recommendations (before ++ (label, row) :: after)%list
  = ((flat_map (fun labelled =>
                  [RecommendedHeader (id (snd labelled));
                   DescriptionExpander
                     (clean_text (fillna (description (snd labelled)) ""));
                   Separator]) before
      ++ [RecommendedHeader (id row)])%list,
     Some AttributeError).
Proof.
  intros Hbefore Hrow. unfold show_recommendations.
  destruct (before ++ (label, row) :: after)%list as [|p rows] eqn:E.
  - destruct before; discriminate.
  - cbn [empty negb]. rewrite <- E, for_each_app, (for_each_described _ Hbefore).
    cbn [page_seq for_each snd]. unfold show_recommendation. rewrite Hrow.
    cbn [clean_description raise page_seq app]. reflexivity.
Qed.

Lemma show_recommendations_missing_witness :
  show_recommendations [(0%nat, mkRow "A" (Str "red")); (1%nat, mkRow "B" NaN);
                        (2%nat, mkRow "C" (Str "blue"))]
  = ([RecommendedHeader "A"; DescriptionExpander "red"; Separator;
      RecommendedHeader "B"], Some AttributeError).
Proof.
  apply (show_recommendations_missing [(0%nat, mkRow "A" (Str "red"))]
           [(2%nat, mkRow "C" (Str "blue"))] 1 (mkRow "B" NaN)).
  - repeat constructor.
  - reflexivity.
Defined.

(** ** The ranking behind the recommendations *)

Lemma removelast_length {A} (l : list A) :
  List.length (removelast l) = (List.length l - 1)%nat.
Proof. rewrite removelast_firstn_len, length_firstn. lia. Qed.

(** Line 187 for a number [n >= 0]: drop the last position of [argsort], read
    the others from the highest score down, keep the first [n]. *)
Lemma related_firstn {A} (n : Z) (order : list A) :
  (0 <= n)%Z ->
  rev (slice (- (n + 1)) (-1) order) = firstn (Z.to_nat n) (rev (removelast order)).
Proof.
  intros Hn. rewrite (slice_recommendations n order Hn), firstn_rev, removelast_length.
  reflexivity.
Qed.

Lemma rows_at_firstn (df : DataFrame) (k : nat) (indices : list nat) :
  Forall (fun i => (i < List.length df)%nat) indices ->
  rows_at df (firstn k indices) = firstn k (rows_at df indices).
Proof.
  intros H. revert k. induction H as [|i indices Hi _ IH]; intros k.
  - rewrite !firstn_nil. reflexivity.
  - destruct k as [|k]; [reflexivity|].
    apply nth_error_Some in Hi. unfold rows_at in *. cbn [firstn flat_map].
    destruct (nth_error df i) as [r|]; [|congruence].
    cbn [app firstn]. rewrite IH. reflexivity.
Qed.

Section Ranking.

Variable tfidf_cosine : list string -> result (list (list Q)).
Variable argsort : list Q -> list nat.
Hypothesis cosine_ok : cosine_contract tfidf_cosine.
Hypothesis argsort_ok : argsort_contract argsort.

Lemma ranking_in_range (df : DataFrame) (row : list Q) :
  List.length row = List.length df ->
  Forall (fun i => (i < List.length df)%nat) (rev (removelast (argsort row))).
Proof.
  intros Hlen. apply Forall_forall. intros i Hi. apply in_rev in Hi.
  assert (Hin : In i (argsort row)).
  { rewrite removelast_firstn_len in Hi.
    rewrite <- (firstn_skipn (Nat.pred (List.length (argsort row))) (argsort row)).
    apply in_or_app. left. exact Hi. }
  apply (argsort_range argsort argsort_ok) in Hin. lia.
Qed.

(** The run of the recommender for [n >= 0], in terms of the ranking. *)
Lemma find_related_products_ranking
      (product_id : string) (df : DataFrame) (n : Z) (M : list (list Q)) :
  In product_id (map id df) ->
  tfidf_cosine (documents df) = ret M ->
  (0 <= n)%Z ->
  exists selected_idx row,
    getitem (matching_index product_id df 0) 0 = ret selected_idx /\
    nth_error M selected_idx = Some row /\
    List.length row = List.length df /\
    find_related_products tfidf_cosine argsort product_id df n
    = (ret (firstn (Z.to_nat n) (rows_at df (rev (removelast (argsort row))))), []) /\
    map fst (rows_at df (rev (removelast (argsort row)))) = rev (removelast (argsort row)).
Proof.
  intros Hin HM Hn.
  destruct (find_related_products_present tfidf_cosine argsort cosine_ok argsort_ok
              product_id df n M Hin HM)
    as (idx & row & Hidx & _ & Hrow & Hlen & Hfind & _).
  exists idx, row. repeat (split; [assumption|]).
  cbv zeta in Hfind. rewrite (related_firstn n _ Hn) in Hfind.
  rewrite (rows_at_firstn df _ _ (ranking_in_range df row Hlen)) in Hfind.
  split; [exact Hfind|].
  apply iloc_in_range, ranking_in_range, Hlen.
Qed.

(** Asking for more recommendations extends the list: the rows returned for
    [n] are the first [n] of the rows returned for [n + m]. *)
Theorem find_related_products_prefix
        (product_id : string) (df : DataFrame) (n m : Z) (M : list (list Q)) :
  In product_id (map id df) ->
  tfidf_cosine (documents df) = ret M ->
  (0 <= n)%Z -> (0 <= m)%Z ->
  exists fewer more,
    find_related_products tfidf_cosine argsort product_id df n = (ret fewer, []) /\
    find_related_products tfidf_cosine argsort product_id df (n + m) = (ret more, []) /\
    fewer = firstn (Z.to_nat n) more.
Proof.
  intros Hin HM Hn Hm.
  destruct (find_related_products_ranking product_id df n M Hin HM Hn)
    as (idx & row & Hidx & Hrow & _ & Hfew & _).
  destruct (find_related_products_ranking product_id df (n + m) M Hin HM ltac:(lia))
    as (idx' & row' & Hidx' & Hrow' & _ & Hmore & _).
  rewrite Hidx in Hidx'. injection Hidx' as <-.
  rewrite Hrow in Hrow'. injection Hrow' as <-.
  eexists _, _. split; [exact Hfew|]. split; [exact Hmore|].
  rewrite firstn_firstn. f_equal. lia.
Qed.

(** Every returned row scores at least as high as every row left out, the
    position ranked last by [argsort] apart: what is returned is the top of
    the ranking without its first place. *)
Theorem find_related_products_top
        (product_id : string) (df : DataFrame) (n : Z) (M : list (list Q)) :
  In product_id (map id df) ->
  tfidf_cosine (documents df) = ret M ->
  (0 <= n)%Z ->
  exists selected_idx row related_products,
    getitem (matching_index product_id df 0) 0 = ret selected_idx /\
    nth_error M selected_idx = Some row /\
    find_related_products tfidf_cosine argsort product_id df n
    = (ret related_products, []) /\
    forall i j,
      In i (map fst related_products) ->
      In j (removelast (argsort row)) ->
      ~ In j (map fst related_products) ->
      (score row j <= score row i)%Q.
Proof.
  intros Hin HM Hn.
  destruct (find_related_products_ranking product_id df n M Hin HM Hn)
    as (idx & row & Hidx & Hrow & Hlen & Hfind & Hfst).
  eexists idx, row, _. repeat (split; [eassumption|]).
  rewrite <- firstn_map, Hfst. set (ranking := rev (removelast (argsort row))).
  intros i j Hi Hj Hout.
  assert (Hdesc : StronglySorted (fun a b => score row b <= score row a)%Q ranking).
  { unfold ranking.
    apply (StronglySorted_rev (fun a b => score row a <= score row b)%Q).
    rewrite removelast_firstn_len. apply StronglySorted_firstn, argsort_ok. }
  rewrite <- (firstn_skipn (Z.to_nat n) ranking) in Hdesc.
  apply StronglySorted_app_inv in Hdesc as (_ & _ & H). apply H; [exact Hi|].
  assert (Hjr : In j ranking) by (unfold ranking; apply (proj1 (in_rev _ _)), Hj).
  rewrite <- (firstn_skipn (Z.to_nat n) ranking) in Hjr.
  apply in_app_or in Hjr as [Hjr|Hjr]; [contradiction | exact Hjr].
Qed.

(** No product is recommended twice, and the position that [argsort] ranks
    last, the one with the highest score, is never returned, whatever the
    number asked for. *)
Theorem find_related_products_distinct
        (product_id : string) (df : DataFrame) (n : Z) (M : list (list Q)) :
  In product_id (map id df) ->
  tfidf_cosine (documents df) = ret M ->
  exists selected_idx row related_products,
    getitem (matching_index product_id df 0) 0 = ret selected_idx /\
    nth_error M selected_idx = Some row /\
    find_related_products tfidf_cosine argsort product_id df n
    = (ret related_products, []) /\
    NoDup (map fst related_products) /\
    ~ In (last (argsort row) 0%nat) (map fst related_products).
Proof.
  intros Hin HM.
  destruct (find_related_products_present tfidf_cosine argsort cosine_ok argsort_ok
              product_id df n M Hin HM)
    as (idx & row & Hidx & Hlt & Hrow & Hlen & Hfind & Hfst).
  cbv zeta in Hfind, Hfst.
  eexists idx, row, _. repeat (split; [eassumption|]). rewrite Hfst. split.
  - apply NoDup_rev, slice_NoDup, (argsort_NoDup argsort argsort_ok).
  - intros H. apply in_rev, slice_excludes_last in H.
    pose proof (argsort_NoDup argsort argsort_ok row) as Hnd.
    destruct (argsort row) as [|i0 rest] eqn:E; [destruct H|].
    rewrite (app_removelast_last 0%nat (l := i0 :: rest)) in Hnd by discriminate.
    apply NoDup_remove_2 in Hnd. rewrite app_nil_r in Hnd. contradiction.
Qed.

(** Nothing is recommended when no recommendation is asked for, or when the
    catalog has at most one product. *)
Theorem find_related_products_nothing
        (product_id : string) (df : DataFrame) (n : Z) :
  n = 0%Z \/ (List.length df <= 1)%nat ->
  exists log,
    find_related_products tfidf_cosine argsort product_id df n = (ret [], log).
Proof.
  intros Hcase.
  destruct (tfidf_cosine (documents df)) as [e|M] eqn:E.
  { eexists. apply find_related_products_vectorizer_raises, E. }
  destruct (in_dec string_dec product_id (map id df)) as [Hin|Hout].
  2:{ destruct (find_related_products_absent tfidf_cosine argsort product_id df n Hout)
        as (e & He). eexists. exact He. }
  destruct (find_related_products_present tfidf_cosine argsort cosine_ok argsort_ok
              product_id df n M Hin E)
    as (idx & row & _ & _ & _ & Hlen & Hfind & _).
  cbv zeta in Hfind. exists []. rewrite Hfind.
  assert (Hnil : slice (- (n + 1)) (-1) (argsort row) = []).
  { destruct Hcase as [-> | Hsmall].
    - rewrite (slice_recommendations 0) by lia.
      apply skipn_all2. rewrite removelast_length. cbn. lia.
    - destruct (slice (- (n + 1)) (-1) (argsort row)) as [|i l] eqn:Es; [reflexivity|].
      assert (Hi : In i (removelast (argsort row))).
      { apply (slice_excludes_last (- (n + 1))). rewrite Es. left. reflexivity. }
      pose proof (removelast_length (argsort row)) as Hl.
      rewrite (argsort_length argsort argsort_ok) in Hl.
      destruct (removelast (argsort row)); [destruct Hi | cbn in Hl; lia]. }
  rewrite Hnil. reflexivity.
Qed.

(** On the page the id comes from the select box, so it is in the catalog: an
    error reported by the recommender is then the exception of the vectorizer,
    and the frame returned with it is empty. *)
Theorem find_related_products_error_on_page
        (product_id : string) (df : DataFrame) (n : Z)
        (related_products : Frame) (e : exn) (log : list st_msg) :
  In product_id (unique (map id df)) ->
  find_related_products tfidf_cosine argsort product_id df n
  = (ret related_products, ErrorFindingRelated e :: log) ->
  tfidf_cosine (documents df) = raise e /\ related_products = [] /\ log = [].
Proof.
  intros Hin Hrun. apply (proj1 (unique_In _ _)) in Hin.
  destruct (tfidf_cosine (documents df)) as [e'|M] eqn:E.
  - rewrite (find_related_products_vectorizer_raises _ _ _ _ _ _ E) in Hrun.
    injection Hrun as <- <- <-. repeat split.
  - destruct (find_related_products_present tfidf_cosine argsort cosine_ok argsort_ok
                product_id df n M Hin E)
      as (idx & row & _ & _ & _ & _ & Hfind & _).
    cbv zeta in Hfind. rewrite Hfind in Hrun. discriminate.
Qed.

End Ranking.

(** ** The ranking properties on the example catalogs *)

Lemma find_related_products_prefix_witness :
  exists fewer more,
    find_related_products exact_match_cosine argsort_insertion "A" catalog_distinct 1
    = (ret fewer, []) /\
    find_related_products exact_match_cosine argsort_insertion "A" catalog_distinct (1 + 1)
    = (ret more, []) /\
    fewer = firstn (Z.to_nat 1) more.
Proof.
  apply (find_related_products_prefix exact_match_cosine argsort_insertion
           exact_match_cosine_contract argsort_insertion_contract
           "A" catalog_distinct 1 1
           [[1%Q; 0%Q; 0%Q]; [0%Q; 1%Q; 0%Q]; [0%Q; 0%Q; 1%Q]]).
  - left. reflexivity.
  - reflexivity.
  - lia.
  - lia.
Defined.

Lemma find_related_products_top_witness :
  exists selected_idx row related_products,
    getitem (matching_index "C" catalog_dup 0) 0 = ret selected_idx /\
    nth_error [[1%Q; 1%Q; 0%Q]; [1%Q; 1%Q; 0%Q]; [0%Q; 0%Q; 1%Q]] selected_idx
    = Some row /\
    find_related_products exact_match_cosine argsort_insertion "C" catalog_dup 1
    = (ret related_products, []) /\
    forall i j,
      In i (map fst related_products) ->
      In j (removelast (argsort_insertion row)) ->
      ~ In j (map fst related_products) ->
      (score row j <= score row i)%Q.
Proof.
  apply (find_related_products_top exact_match_cosine argsort_insertion
           exact_match_cosine_contract argsort_insertion_contract
           "C" catalog_dup 1).
  - right. right. left. reflexivity.
  - reflexivity.
  - lia.
Defined.

Lemma find_related_products_distinct_witness :
  exists selected_idx row related_products,
    getitem (matching_index "A" catalog_dup 0) 0 = ret selected_idx /\
    nth_error [[1%Q; 1%Q; 0%Q]; [1%Q; 1%Q; 0%Q]; [0%Q; 0%Q; 1%Q]] selected_idx
    = Some row /\
    find_related_products exact_match_cosine argsort_insertion "A" catalog_dup 5
    = (ret related_products, []) /\
    NoDup (map fst related_products) /\
    ~ In (last (argsort_insertion row) 0%nat) (map fst related_products).
Proof.
  apply (find_related_products_distinct exact_match_cosine argsort_insertion
           exact_match_cosine_contract argsort_insertion_contract
           "A" catalog_dup 5).
  - left. reflexivity.
  - reflexivity.
Defined.

Lemma find_related_products_nothing_witness :
  (exists log,
      find_related_products exact_match_cosine argsort_insertion "A" catalog_dup 0
      = (ret [], log)) /\
  (exists log,
      find_related_products exact_match_cosine argsort_insertion "A"
                            [mkRow "A" (Str "red shoe")] 3
      = (ret [], log)).
Proof.
  split.
  - apply (find_related_products_nothing exact_match_cosine argsort_insertion
             exact_match_cosine_contract argsort_insertion_contract).
    left. reflexivity.
  - apply (find_related_products_nothing exact_match_cosine argsort_insertion
             exact_match_cosine_contract argsort_insertion_contract).
    right. cbn. lia.
Defined.

Lemma find_related_products_error_on_page_witness :
  exact_match_cosine (documents catalog_missing) = raise ValueError /\
  @nil (nat * Row) = [] /\ @nil st_msg = [].
Proof.
  apply (find_related_products_error_on_page exact_match_cosine argsort_insertion
           exact_match_cosine_contract argsort_insertion_contract
           "A" catalog_missing 3 [] ValueError []).
  - left. reflexivity.
  - reflexivity.
Defined.

Lemma target_excluded_when_strict_max_witness :
  ~ In 0%nat (map fst [(2%nat, mkRow "C" (Str "green sock"));
                       (1%nat, mkRow "B" (Str "blue hat"))]).
Proof.
  apply (target_excluded_when_strict_max exact_match_cosine argsort_insertion
           exact_match_cosine_contract argsort_insertion_contract
           "A" catalog_distinct 3
           [[1%Q; 0%Q; 0%Q]; [0%Q; 1%Q; 0%Q]; [0%Q; 0%Q; 1%Q]]
           0%nat [1%Q; 0%Q; 0%Q] _ []).
  - left. reflexivity.
  - reflexivity.
  - reflexivity.
  - reflexivity.
  - intros j Hj Hne. cbn in Hj.
    destruct j as [|[|[|j]]]; [congruence | reflexivity | reflexivity | lia].
  - vm_compute. reflexivity.
Defined.

(** ** The cleaner: what it substitutes, and when cleaning twice changes nothing *)

Lemma occurs_nil (old : string) : old <> "" -> occurs old "" = false.
Proof. destruct old; [congruence | reflexivity]. Qed.

(** A replacement shorter than the marker makes a text in which the marker
    occurs strictly shorter. *)
Lemma replace_from_shorter (old new s : string) :
  (String.length new < String.length old)%nat ->
  occurs old s = true ->
  (String.length (replace_from old new 0 s) < String.length s)%nat.
Proof.
  intros Hlen. induction s as [|c s IH]; intros Hocc.
  - rewrite occurs_nil in Hocc; [discriminate|].
    intros ->. cbn in Hlen. lia.
  - cbn [occurs] in Hocc. cbn [replace_from].
    destruct (prefix old (String c s)) eqn:Hp.
    + pose proof (prefix_length _ _ Hp) as Hpl. cbn [String.length] in *.
      rewrite length_append.
      pose proof (replace_from_length old new (String.length old - 1) s ltac:(lia)).
      lia.
    + cbn [orb] in Hocc. cbn [String.length]. specialize (IH Hocc). lia.
Qed.

Lemma str_replace_shorter (old new s : string) :
  (String.length new < String.length old)%nat ->
  occurs old s = true ->
  (String.length (str_replace old new s) < String.length s)%nat.
Proof.
  intros Hlen Hocc. destruct old as [|a old]; [cbn in Hlen; lia|].
  unfold str_replace. apply replace_from_shorter; assumption.
Qed.

(** One step of the chain: the marker occurs and the text gets shorter, or it
    does not and the text is unchanged. *)
Lemma str_replace_step (old new s : string) :
  (String.length new < String.length old)%nat ->
  (occurs old s = true /\
   (String.length (str_replace old new s) < String.length s)%nat) \/
  (occurs old s = false /\ str_replace old new s = s).
Proof.
  intros Hlen. destruct (occurs old s) eqn:E.
  - left. split; [reflexivity | apply str_replace_shorter; assumption].
  - right. split; [reflexivity | apply str_replace_absent, E].
Qed.

(** A text that contains a marker is made strictly shorter by the cleaner. *)
Lemma clean_text_shorter (y : string) :
  markup_free y = false ->
  (String.length (clean_text y) < String.length y)%nat.
Proof.
  unfold markup_free, markers. cbn [forallb]. intros Hm. unfold clean_text.
  destruct (str_replace_step "<br><br>" (nl ++ nl) y ltac:(cbn; lia)) as [[_ H1]|[E1 ->]].
  { eapply Nat.le_lt_trans; [|exact H1].
    do 4 (etransitivity; [apply str_replace_length; [discriminate | cbn; lia]|]).
    reflexivity. }
  destruct (str_replace_step "<ul>" "" y ltac:(cbn; lia)) as [[_ H2]|[E2 ->]].
  { eapply Nat.le_lt_trans; [|exact H2].
    do 3 (etransitivity; [apply str_replace_length; [discriminate | cbn; lia]|]).
    reflexivity. }
  destruct (str_replace_step "</ul>" "" y ltac:(cbn; lia)) as [[_ H3]|[E3 ->]].
  { eapply Nat.le_lt_trans; [|exact H3].
    do 2 (etransitivity; [apply str_replace_length; [discriminate | cbn; lia]|]).
    reflexivity. }
  destruct (str_replace_step "<li>" "- " y ltac:(cbn; lia)) as [[_ H4]|[E4 ->]].
  { eapply Nat.le_lt_trans; [|exact H4].
    apply str_replace_length; [discriminate | cbn; lia]. }
  destruct (str_replace_step "</li>" nl y ltac:(cbn; lia)) as [[_ H5]|[E5 _]].
  { exact H5. }
  rewrite E1, E2, E3, E4, E5 in Hm. discriminate.
Qed.

Lemma clean_piece_over (pieces : list piece) :
  Forall (piece_over markers) pieces ->
  Forall (piece_over markers) (map clean_piece pieces).
Proof.
  induction 1 as [|p pieces Hp _ IH]; cbn [map]; constructor; [|exact IH].
  destruct p as [s|m]; cbn [clean_piece piece_over] in *; [exact Hp|].
  unfold markers in Hp. cbn [In] in Hp.
  destruct Hp as [<-|[<-|[<-|[<-|[<-|[]]]]]]; reflexivity.
Qed.

Lemma clean_piece_twice (pieces : list piece) :
  map clean_piece (map clean_piece pieces) = map clean_piece pieces.
Proof.
  rewrite map_map. apply map_ext. intros [s|m]; reflexivity.
Qed.

(** C4, amended: cleaning twice is the same as cleaning once exactly when the
    cleaned text contains none of the five markers. That is the case of every
    text without markers, which the cleaner leaves as it is, and of every
    description made of text without brackets and of the five markers. *)
Theorem clean_text_idempotent_iff :
  (forall x, clean_text (clean_text x) = clean_text x <->
             markup_free (clean_text x) = true) /\
  (forall x, markup_free x = true ->
             clean_text x = x /\ clean_text (clean_text x) = clean_text x) /\
  (forall pieces, forallb well_formed pieces = true ->
                  clean_text (clean_text (render pieces)) = clean_text (render pieces)).
Proof.
  split; [|split].
  - intros x. split.
    + intros Hfix. destruct (markup_free (clean_text x)) eqn:E; [reflexivity|].
      apply clean_text_shorter in E. rewrite Hfix in E. lia.
    + apply clean_text_markup_free.
  - intros x H. pose proof (clean_text_markup_free x H) as E.
    split; [exact E | rewrite E; exact E].
  - intros pieces Hwf.
    assert (H0 : Forall (piece_over markers) pieces).
    { apply Forall_forall. intros p Hp. apply well_formed_over.
      rewrite forallb_forall in Hwf. apply Hwf, Hp. }
    rewrite (clean_text_render pieces H0).
    rewrite (clean_text_render _ (clean_piece_over pieces H0)).
    rewrite clean_piece_twice. reflexivity.
Qed.

Lemma clean_text_idempotent_iff_witness :
  clean_text (clean_text "<ul><li>red</li><li>shoe</li></ul>")
  = clean_text "<ul><li>red</li><li>shoe</li></ul>" /\
  clean_text (clean_text "blue hat") = clean_text "blue hat" /\
  markup_free (clean_text "<u<ul>l>") = false.
Proof.
  destruct clean_text_idempotent_iff as (Hiff & Hfree & Hpieces).
  split; [|split].
  - apply (Hpieces [Tag "<ul>"; Tag "<li>"; Plain "red"; Tag "</li>";
                    Tag "<li>"; Plain "shoe"; Tag "</li>"; Tag "</ul>"]).
    reflexivity.
  - apply (Hfree "blue hat"). reflexivity.
  - destruct (markup_free (clean_text "<u<ul>l>")) eqn:E; [|reflexivity].
    apply (Hiff "<u<ul>l>") in E. vm_compute in E. discriminate.
Defined.

(** C5: the cleaner is the chain of the substitutions in the order of the
    source, on every input; each substitution is Python's [str.replace], which
    leaves the empty text empty, puts the new text for an occurrence of the old
    one and resumes after it, and copies a character where no occurrence
    starts. So on a description made of text without brackets and of the five
    markers, every double line break becomes two newlines, the list container
    markers disappear, every item opening becomes a bullet and every item
    closing a newline; the description of product A of the example becomes two
    bulleted lines. *)
Theorem clean_text_substitutions :
  (forall x,
     clean_text x =
     str_replace "</li>" nl
       (str_replace "<li>" "- "
          (str_replace "</ul>" ""
             (str_replace "<ul>" ""
                (str_replace "<br><br>" (nl ++ nl) x)))) /\
     clean_description (Str x) = ret (clean_text x)) /\
  (forall old new,
     old <> "" ->
     str_replace old new "" = "" /\
     (forall s, prefix old s = true ->
                str_replace old new s =
                new ++ str_replace old new
                         (substring (String.length old)
                                    (String.length s - String.length old) s)) /\
     (forall c s, prefix old (String c s) = false ->
                  str_replace old new (String c s)
                  = String c (str_replace old new s))) /\
  (forall pieces,
     forallb well_formed pieces = true ->
     clean_text (render pieces) = render (map clean_piece pieces)) /\
  replacement "<br><br>" = nl ++ nl /\
  replacement "<ul>" = "" /\ replacement "</ul>" = "" /\
  replacement "<li>" = "- " /\ replacement "</li>" = nl /\
  clean_text "<ul><li>red</li><li>shoe</li></ul>" = "- red" ++ nl ++ "- shoe" ++ nl.
Proof.
  split; [intros x; split; reflexivity|].
  split.
  { intros old new Hold. split; [apply str_replace_nil, Hold|]. split.
    - intros s. apply str_replace_match, Hold.
    - intros c s. apply str_replace_skip, Hold. }
  split.
  { intros pieces Hwf. apply clean_text_render.
    apply Forall_forall. intros p Hp. apply well_formed_over.
    rewrite forallb_forall in Hwf. apply Hwf, Hp. }
  repeat split; vm_compute; reflexivity.
Qed.

Lemma clean_text_substitutions_witness :
  str_replace "<li>" "- " "<li>a<li>" = "- a- " /\
  clean_text (render [Tag "<br><br>"; Plain "a"; Tag "<li>"; Plain "b"; Tag "</li>"])
  = nl ++ nl ++ "a" ++ "- " ++ "b" ++ nl.
Proof.
  destruct clean_text_substitutions as (_ & Hreplace & Hpieces & _).
  destruct (Hreplace "<li>" "- " ltac:(discriminate)) as (Hnil & Hmatch & Hskip).
  split.
  - rewrite (Hmatch "<li>a<li>" eq_refl). cbn [String.length Nat.sub substring].
    rewrite (Hskip "a"%char "<li>" eq_refl).
    rewrite (Hmatch "<li>" eq_refl). cbn [String.length Nat.sub substring].
    rewrite Hnil. reflexivity.
  - rewrite (Hpieces [Tag "<br><br>"; Plain "a"; Tag "<li>"; Plain "b"; Tag "</li>"]
                     eq_refl).
    reflexivity.
Defined.
